(** * Chzzk-Downloader: the input-resolution and download-session controller

    A shallow embedding of [src/App.tsx]: the time codec ([secondsToHms],
    [hmsToSeconds]), the masked time-field editor ([parseTimeString],
    [handleTimeInput]), the reference parser ([parseInput]), the debounced
    metadata resolver, the range validator, the size estimate of the
    quality selector and the download trigger, followed by the properties
    established about them.

    The component [App] is a transition system: its state is the content
    of its [useState] cells together with what the run time holds for it
    (the clock, the pending timer, the fetches awaiting an answer, the
    backend commands invoked); an event runs its handler and then the
    effects of the render it causes.  A disabled control dispatches no
    event.  Time is counted in milliseconds. *)

From Stdlib Require Import ZArith List String Ascii Bool Lia Permutation Sorted.
From Stdlib Require Import SpecFloat.
Import ListNotations.
Local Open Scope string_scope.
Local Open Scope Z_scope.

(** ** The JavaScript primitives the source relies on

    A JavaScript string is a sequence of code units; the model carries the
    code units 0..255 as [ascii].

    A JavaScript number is an IEEE 754 double.  The controller counts
    seconds, and [number] carries such a count as an integer, or [NaN]:
    [Num z] stands for the double that holds [z], and the operations below
    are those of the integers, with no rounding, no overflow to an infinity
    and no fraction.  They are the operations of the code as long as every
    operand and every result is an integer of magnitude at most
    [MAX_SAFE_INTEGER]; past that the doubles round and [number] does not
    follow them.  The module [Double] further down gives the time codec
    over the doubles themselves. *)

Module JS.

Inductive number : Type :=
| Num (z : Z)
| NaN.

(** [Number.MAX_SAFE_INTEGER], [2^53 - 1]. *)
Definition MAX_SAFE_INTEGER : Z := 9007199254740991.

(** [a * b] and [a + b]: any [NaN] operand makes the result [NaN]. *)
Definition mul (a b : number) : number :=
  match a, b with
  | Num x, Num y => Num (x * y)
  | _, _ => NaN
  end.

Definition add (a b : number) : number :=
  match a, b with
  | Num x, Num y => Num (x + y)
  | _, _ => NaN
  end.

Definition sub (a b : number) : number :=
  match a, b with
  | Num x, Num y => Num (x - y)
  | _, _ => NaN
  end.

(** Comparisons with [NaN] are false. *)
Definition gt (a b : number) : bool :=
  match a, b with
  | Num x, Num y => y <? x
  | _, _ => false
  end.

Definition ge (a b : number) : bool :=
  match a, b with
  | Num x, Num y => y <=? x
  | _, _ => false
  end.

(** Truthiness of a number: [0] and [NaN] are falsy. *)
Definition truthy (a : number) : bool :=
  match a with
  | Num z => negb (z =? 0)
  | NaN => false
  end.

(** [a || b] on numbers. *)
Definition or_else (a b : number) : number :=
  if truthy a then a else b.

(** [Math.max(a, b)]: [NaN] if either argument is. *)
Definition max (a b : number) : number :=
  match a, b with
  | Num x, Num y => Num (Z.max x y)
  | _, _ => NaN
  end.

(** An operand read from an array: [undefined] when the index is out of
    range, and [undefined] converts to [NaN] in arithmetic. *)
Definition to_number (v : option number) : number :=
  match v with
  | Some n => n
  | None => NaN
  end.

(** *** Characters *)

Definition code (c : ascii) : Z := Z.of_nat (nat_of_ascii c).

Definition is_digit (c : ascii) : bool :=
  (48 <=? code c) && (code c <=? 57).

Definition digit_val (c : ascii) : Z := code c - 48.

Definition digit_char (d : Z) : ascii := ascii_of_nat (Z.to_nat (48 + d)).

(** Hexadecimal digit value, [None] for any other character. *)
Definition hex_val (c : ascii) : option Z :=
  let n := code c in
  if (48 <=? n) && (n <=? 57) then Some (n - 48)
  else if (65 <=? n) && (n <=? 70) then Some (n - 55)
  else if (97 <=? n) && (n <=? 102) then Some (n - 87)
  else None.

(** White space and line terminators skipped by [parseInt] (those with a
    code unit below 256). *)
Definition is_space (c : ascii) : bool :=
  let n := code c in
  (n =? 9) || (n =? 10) || (n =? 11) || (n =? 12) || (n =? 13)
  || (n =? 32) || (n =? 160).

(** *** Strings *)

(** [s.includes(":")] for a one-character needle. *)
Fixpoint includes (s : string) (c : ascii) : bool :=
  match s with
  | EmptyString => false
  | String x r => Ascii.eqb x c || includes r c
  end.

(** [s.split(sep)] for a one-character separator; never the empty list. *)
Fixpoint split (sep : ascii) (s : string) : list string :=
  match s with
  | EmptyString => [EmptyString]
  | String c r =>
      if Ascii.eqb c sep then EmptyString :: split sep r
      else match split sep r with
           | h :: t => String c h :: t
           | [] => [String c EmptyString]
           end
  end.

(** [xs.join(sep)] *)
Fixpoint join (sep : string) (xs : list string) : string :=
  match xs with
  | [] => EmptyString
  | [x] => x
  | x :: r => x ++ sep ++ join sep r
  end.

Fixpoint repeat_char (c : ascii) (n : nat) : string :=
  match n with
  | O => EmptyString
  | S k => String c (repeat_char c k)
  end.

(** [s.padStart(n, "0")] for a one-character filler. *)
Definition padStart (n : nat) (fill : ascii) (s : string) : string :=
  repeat_char fill (n - String.length s) ++ s.

(** [s.charAt(i)]: the empty string when [i] is out of range. *)
Definition charAt (s : string) (i : nat) : string :=
  match String.get i s with
  | Some c => String c EmptyString
  | None => EmptyString
  end.

(** [s || dflt] on strings: the empty string is falsy, and so is the
    [undefined] of a missing array element. *)
Definition str_or (v : option string) (dflt : string) : string :=
  match v with
  | Some (String c r) => String c r
  | _ => dflt
  end.

(** *** [String(v)] for a number *)

Fixpoint digits (fuel : nat) (n : Z) : string :=
  match fuel with
  | O => EmptyString
  | S f =>
      if n <? 10 then String (digit_char n) EmptyString
      else digits f (n / 10) ++ String (digit_char (n mod 10)) EmptyString
  end.

(** A natural number below [10 ^ k] has at most [k] digits, and
    [n < 10 ^ (1 + log2 n)]. *)
Definition digits_fuel (n : Z) : nat := S (Z.to_nat (Z.log2 n)).

Definition String_ (v : number) : string :=
  match v with
  | NaN => "NaN"
  | Num z =>
      if z <? 0 then String "-" (digits (digits_fuel (- z)) (- z))
      else digits (digits_fuel z) z
  end.

(** *** [parseInt(s)] without a radix *)

Fixpoint skip_space (s : string) : string :=
  match s with
  | String c r => if is_space c then skip_space r else s
  | EmptyString => s
  end.

(** Value of the longest prefix of decimal digits, continuing from
    [acc]. *)
Fixpoint parse_dec (acc : Z) (s : string) : Z :=
  match s with
  | String c r =>
      if is_digit c then parse_dec (acc * 10 + digit_val c) r else acc
  | EmptyString => acc
  end.

Fixpoint parse_hex (acc : Z) (s : string) : Z :=
  match s with
  | String c r =>
      match hex_val c with
      | Some d => parse_hex (acc * 16 + d) r
      | None => acc
      end
  | EmptyString => acc
  end.

Definition is_x (c : ascii) : bool := Ascii.eqb c "x" || Ascii.eqb c "X".

Definition parse_decimal (s : string) : number :=
  match s with
  | String c _ => if is_digit c then Num (parse_dec 0 s) else NaN
  | EmptyString => NaN
  end.

Definition parse_hexadecimal (s : string) : number :=
  match s with
  | String h _ =>
      match hex_val h with
      | Some _ => Num (parse_hex 0 s)
      | None => NaN
      end
  | EmptyString => NaN
  end.

(** The unsigned body: a [0x]/[0X] prefix selects radix 16; no digit at
    all gives [NaN]. *)
Definition parse_body (s : string) : number :=
  match s with
  | String c (String x r) =>
      if Ascii.eqb c "0" && is_x x then parse_hexadecimal r
      else parse_decimal s
  | _ => parse_decimal s
  end.

Definition negate (a : number) : number :=
  match a with
  | Num z => Num (- z)
  | NaN => NaN
  end.

Definition parseInt (s : string) : number :=
  match skip_space s with
  | String c r =>
      if Ascii.eqb c "-" then negate (parse_body r)
      else if Ascii.eqb c "+" then parse_body r
      else parse_body (String c r)
  | EmptyString => NaN
  end.

End JS.

(** ** Time codec *)

(** [secondsToHms]: [Math.floor] of a quotient by a positive constant is
    [Z.div]; [%] is the truncating remainder [Z.rem]. *)
Definition pad2 (v : JS.number) : string := JS.padStart 2 "0" (JS.String_ v).

Definition secondsToHms (sec : JS.number) : string :=
  match sec with
  | JS.Num n =>
      let h := n / 3600 in
      let m := Z.rem n 3600 / 60 in
      let s := Z.rem n 60 in
      JS.join ":" (map pad2 [JS.Num h; JS.Num m; JS.Num s])
  | JS.NaN => JS.join ":" (map pad2 [JS.NaN; JS.NaN; JS.NaN])
  end.

(** [hmsToSeconds]: [parts[i]] is [undefined] past the end of the array,
    which turns the sum into [NaN]. *)
Definition hmsToSeconds (hms : string) : JS.number :=
  if negb (JS.includes hms ":") then JS.Num 0
  else
    let parts := map (fun p => JS.or_else (JS.parseInt p) (JS.Num 0))
                     (JS.split ":" hms) in
    JS.add (JS.add (JS.mul (JS.to_number (nth_error parts 0)) (JS.Num 3600))
                   (JS.mul (JS.to_number (nth_error parts 1)) (JS.Num 60)))
           (JS.to_number (nth_error parts 2)).

(** ** The time codec over IEEE 754 doubles

    The same two functions with the arithmetic JavaScript performs:
    binary64 with rounding to nearest, ties to even, as [SpecFloat] defines
    it ([prec = 53], [emax = 1024]).  A double is kept in the normal form
    [SpecFloat] works with; [of_Z] gives the double nearest to an integer,
    which holds that integer when its magnitude is at most
    [JS.MAX_SAFE_INTEGER]. *)

Module Double.

Definition prec : Z := 53.
Definition emax : Z := 1024.

Definition double : Type := spec_float.

Definition of_Z (z : Z) : double := binary_normalize prec emax z 0 false.

Definition mul : double -> double -> double := SFmul prec emax.
Definition add : double -> double -> double := SFadd prec emax.
Definition div : double -> double -> double := SFdiv prec emax.

(** [Math.floor(x)]: a double with a non-negative exponent is an integer;
    otherwise the bits below the binary point are dropped, towards minus
    infinity. *)
Definition floor (x : double) : double :=
  match x with
  | S754_finite sx m e =>
      if 0 <=? e then x
      else binary_normalize prec emax
             (Z.shiftr (cond_Zopp sx (Zpos m)) (- e)) 0 false
  | _ => x
  end.

(** [x % y]: [NaN] for an infinite dividend or a zero divisor, the dividend
    itself for an infinite divisor or a zero dividend; otherwise the
    truncating remainder, which is exact and has the sign of the
    dividend. *)
Definition rem (x y : double) : double :=
  match x, y with
  | S754_nan, _ | _, S754_nan => S754_nan
  | S754_infinity _, _ => S754_nan
  | _, S754_zero _ => S754_nan
  | S754_zero _, _ => x
  | S754_finite _ _ _, S754_infinity _ => x
  | S754_finite sx mx ex, S754_finite _ my ey =>
      let e := Z.min ex ey in
      let a := Zpos (fst (shl_align mx ex e)) in
      let b := Zpos (fst (shl_align my ey e)) in
      binary_normalize prec emax (cond_Zopp sx (Z.rem a b)) e sx
  end.

(** The integer a double holds, if it holds one. *)
Definition to_Z (x : double) : option Z :=
  match x with
  | S754_zero _ => Some 0
  | S754_finite sx m e =>
      if 0 <=? e then Some (cond_Zopp sx (Z.shiftl (Zpos m) e))
      else if Z.land (Zpos m) (Z.ones (- e)) =? 0
           then Some (cond_Zopp sx (Z.shiftr (Zpos m) (- e)))
           else None
  | _ => None
  end.

(** [String(v)]: [NaN], the infinities, and an integer of magnitude below
    [10^21], which prints as its decimal digits.  Any other double prints
    with a fraction or an exponent; the model gives no text for it. *)
Definition String_ (v : double) : option string :=
  match v with
  | S754_nan => Some "NaN"
  | S754_infinity sx => Some (if sx then "-Infinity" else "Infinity")
  | _ =>
      match to_Z v with
      | Some z => if Z.abs z <? 10 ^ 21 then Some (JS.String_ (JS.Num z))
                  else None
      | None => None
      end
  end.

(** Truthiness: both zeros and [NaN] are falsy. *)
Definition truthy (a : double) : bool :=
  match a with
  | S754_zero _ | S754_nan => false
  | _ => true
  end.

Definition or_else (a b : double) : double := if truthy a then a else b.

Definition to_number (v : option double) : double :=
  match v with
  | Some n => n
  | None => S754_nan
  end.

(** The double nearest to the integer the digits denote. *)
Definition of_number (n : JS.number) : double :=
  match n with
  | JS.Num z => of_Z z
  | JS.NaN => S754_nan
  end.

(** [parseInt(s)]: the digits are read as by [JS.parse_body] and their
    value is rounded to a double; a minus sign negates the double, so that
    ["-0"] reads as the negative zero. *)
Definition parseInt (s : string) : double :=
  match JS.skip_space s with
  | String c r =>
      if Ascii.eqb c "-" then SFopp (of_number (JS.parse_body r))
      else if Ascii.eqb c "+" then of_number (JS.parse_body r)
      else of_number (JS.parse_body (String c r))
  | EmptyString => S754_nan
  end.

Definition pad2 (v : double) : option string :=
  option_map (JS.padStart 2 "0") (String_ v).

Definition secondsToHms (sec : double) : option string :=
  let h := floor (div sec (of_Z 3600)) in
  let m := floor (div (rem sec (of_Z 3600)) (of_Z 60)) in
  let s := rem sec (of_Z 60) in
  match pad2 h, pad2 m, pad2 s with
  | Some a, Some b, Some c => Some (JS.join ":" [a; b; c])
  | _, _, _ => None
  end.

Definition hmsToSeconds (hms : string) : double :=
  if negb (JS.includes hms ":") then of_Z 0
  else
    let parts := map (fun p => or_else (parseInt p) (of_Z 0))
                     (JS.split ":" hms) in
    add (add (mul (to_number (nth_error parts 0)) (of_Z 3600))
             (mul (to_number (nth_error parts 1)) (of_Z 60)))
        (to_number (nth_error parts 2)).

End Double.

(** ** Time-field editor *)

(** [parseTimeString]: the three fields, each defaulting to ["00"] when
    missing or empty and left-padded to two characters. *)
Definition parseTimeString (value : string) : string * string * string :=
  let parts := JS.split ":" value in
  (JS.padStart 2 "0" (JS.str_or (nth_error parts 0) "00"),
   JS.padStart 2 "0" (JS.str_or (nth_error parts 1) "00"),
   JS.padStart 2 "0" (JS.str_or (nth_error parts 2) "00")).

Inductive Field : Type := hours | minutes | seconds.

(** The [if (cursorPos <= 2) ... else if (cursorPos <= 5) ... else ...]
    chain of [handleTimeInput]. *)
Definition field_of_cursor (cursorPos : Z) : Field :=
  if cursorPos <=? 2 then hours
  else if cursorPos <=? 5 then minutes
  else seconds.

(** The test [/^\d$/.test(key)]: exactly one character, a decimal digit. *)
Definition is_digit_key (key : string) : bool :=
  match key with
  | String c EmptyString => JS.is_digit c
  | _ => false
  end.

(** The second half of [handleTimeInput]: the low digit of the targeted
    field moves to the high position and [key] becomes the low digit. *)
Definition enter_digit (field : Field) (currentValue key : string) : string :=
  let '(hh, mm, ss) := parseTimeString currentValue in
  let newHH := match field with
               | hours => JS.padStart 2 "0" (JS.charAt hh 1 ++ key)
               | _ => hh
               end in
  let newMM := match field with
               | minutes => JS.padStart 2 "0" (JS.charAt mm 1 ++ key)
               | _ => mm
               end in
  let newSS := match field with
               | seconds => JS.padStart 2 "0" (JS.charAt ss 1 ++ key)
               | _ => ss
               end in
  newHH ++ ":" ++ newMM ++ ":" ++ newSS.

Definition handleTimeInput (currentValue key : string) (cursorPos : Z)
  : string :=
  if negb (is_digit_key key) then currentValue
  else enter_digit (field_of_cursor cursorPos) currentValue key.

(** An eight-character buffer [HH:MM:SS] given by its six field
    characters. *)
Definition time_buffer (h1 h2 m1 m2 s1 s2 : ascii) : string :=
  String h1 (String h2 (String ":" (String m1 (String m2 (String ":"
    (String s1 (String s2 EmptyString))))))).

(** ** Reference parser *)

Inductive RefKind : Type := video | clip.

Record MediaRef : Type := mkRef { type : RefKind; id : string }.

Definition ParsedInput : Type := option MediaRef.

Definition RefKind_eqb (a b : RefKind) : bool :=
  match a, b with
  | video, video | clip, clip => true
  | _, _ => false
  end.

Fixpoint rtrim (s : string) : string :=
  match s with
  | EmptyString => EmptyString
  | String c r =>
      match rtrim r with
      | EmptyString => if JS.is_space c then EmptyString
                       else String c EmptyString
      | r' => String c r'
      end
  end.

Definition trim (s : string) : string := rtrim (JS.skip_space s).

Fixpoint take_while (p : ascii -> bool) (s : string) : string :=
  match s with
  | String c r => if p c then String c (take_while p r) else EmptyString
  | EmptyString => EmptyString
  end.

Fixpoint all_chars (p : ascii -> bool) (s : string) : bool :=
  match s with
  | String c r => p c && all_chars p r
  | EmptyString => true
  end.

Fixpoint strip_prefix (pre s : string) : option string :=
  match pre, s with
  | EmptyString, _ => Some s
  | String a p, String b r => if Ascii.eqb a b then strip_prefix p r else None
  | String _ _, EmptyString => None
  end.

(** Leftmost match of a literal followed by a greedy non-empty run of
    characters satisfying [p]; the result is the captured run. *)
Fixpoint regex_capture (lit : string) (p : ascii -> bool) (s : string)
  : option string :=
  let here :=
    match strip_prefix lit s with
    | Some rest =>
        match take_while p rest with
        | EmptyString => None
        | cap => Some cap
        end
    | None => None
    end in
  match here with
  | Some cap => Some cap
  | None =>
      match s with
      | String _ r => regex_capture lit p r
      | EmptyString => None
      end
  end.

Definition not_slash_or_query (c : ascii) : bool :=
  negb (Ascii.eqb c "/" || Ascii.eqb c "?").

Definition is_alnum (c : ascii) : bool :=
  let n := JS.code c in
  ((97 <=? n) && (n <=? 122)) || ((65 <=? n) && (n <=? 90))
  || ((48 <=? n) && (n <=? 57)).

Definition nonempty (s : string) : bool :=
  match s with
  | EmptyString => false
  | _ => true
  end.

Definition parseInput (input : string) : ParsedInput :=
  let trimmed := trim input in
  if negb (nonempty trimmed) then None
  else
    match regex_capture "chzzk.naver.com/clips/" not_slash_or_query trimmed with
    | Some cap => Some (mkRef clip cap)
    | None =>
        match regex_capture "chzzk.naver.com/video/" JS.is_digit trimmed with
        | Some cap => Some (mkRef video cap)
        | None =>
            if all_chars JS.is_digit trimmed then Some (mkRef video trimmed)
            else if all_chars is_alnum trimmed then Some (mkRef clip trimmed)
            else None
        end
    end.

(** The dependency list [[parsed?.id, parsed?.type]] of the resolver
    effect, compared with [Object.is]: two parsed values are the same
    dependency when both are [null] or both carry the same kind and id. *)
Definition same_deps (a b : ParsedInput) : bool :=
  match a, b with
  | None, None => true
  | Some x, Some y => RefKind_eqb (type x) (type y) && String.eqb (id x) (id y)
  | _, _ => false
  end.

(** ** Controller data *)

Record DownloadProgress : Type := mkProgress {
  stage : string;
  current : Z;
  total : Z;
  message : string
}.

Record VideoQuality : Type := mkQuality {
  quality_id : string;
  width : Z;
  height : Z;
  bandwidth : Z;
  label : string
}.

Record VodInfo : Type := mkVodInfo {
  vod_title : string;
  vod_channel : string;
  vod_duration : Z;
  vod_thumbnail : string;
  qualities : list VideoQuality
}.

Record ClipInfoResp : Type := mkClipInfo {
  clip_title : string;
  clip_channel : string;
  clip_thumbnail : string
}.

Record PreviewInfo : Type := mkPreview {
  title : string;
  channel : string;
  thumbnail : string;
  duration : option Z
}.

(** The notifications the controller raises; the message texts of the
    source are named rather than spelled out. *)
Inductive ToastMessage : Type :=
| missing_identifier
| missing_destination
| download_complete
| download_failed
| ffmpeg_install_failed.

Inductive ToastType : Type := success | error.

Record ToastData : Type := mkToast {
  toast_type : ToastType;
  toast_message : ToastMessage;
  detail : option string
}.

(** The backend commands reached through [invoke]. *)
Inductive Command : Type :=
| fetch_video_info (videoId : string)
| fetch_clip_info (clipUid : string)
| download_clip_cmd (clipUid outputDir : string)
| download_vod (videoId startTime endTime outputDir : string)
               (qualityId : option string)
| install_ffmpeg.

(** The state of [App]: the [useState] cells, then what the run time holds
    for it: the clock (ms), the pending [setTimeout] of the resolver effect
    with the [parsed] value its callback captured, the metadata fetches
    awaiting their result, and the log of backend commands invoked. *)
Record App : Type := mkApp {
  videoInput : string;
  startTime : string;
  endTime : string;
  outputDir : string;
  isDownloading : bool;
  progress : option DownloadProgress;
  toast : option ToastData;
  preview : option PreviewInfo;
  fetchingInfo : bool;
  availableQualities : list VideoQuality;
  selectedQuality : string;
  ffmpegReady : option bool;
  installingFfmpeg : bool;
  clock : nat;
  timer : option (nat * MediaRef);
  inflight : list MediaRef;
  calls : list Command
}.

Definition set_videoInput (v : string) (s : App) : App :=
  {| videoInput := v; startTime := startTime s; endTime := endTime s;
     outputDir := outputDir s; isDownloading := isDownloading s;
     progress := progress s; toast := toast s; preview := preview s;
     fetchingInfo := fetchingInfo s;
     availableQualities := availableQualities s;
     selectedQuality := selectedQuality s; ffmpegReady := ffmpegReady s;
     installingFfmpeg := installingFfmpeg s; clock := clock s;
     timer := timer s; inflight := inflight s; calls := calls s |}.

Definition set_startTime (v : string) (s : App) : App :=
  {| videoInput := videoInput s; startTime := v; endTime := endTime s;
     outputDir := outputDir s; isDownloading := isDownloading s;
     progress := progress s; toast := toast s; preview := preview s;
     fetchingInfo := fetchingInfo s;
     availableQualities := availableQualities s;
     selectedQuality := selectedQuality s; ffmpegReady := ffmpegReady s;
     installingFfmpeg := installingFfmpeg s; clock := clock s;
     timer := timer s; inflight := inflight s; calls := calls s |}.

Definition set_endTime (v : string) (s : App) : App :=
  {| videoInput := videoInput s; startTime := startTime s; endTime := v;
     outputDir := outputDir s; isDownloading := isDownloading s;
     progress := progress s; toast := toast s; preview := preview s;
     fetchingInfo := fetchingInfo s;
     availableQualities := availableQualities s;
     selectedQuality := selectedQuality s; ffmpegReady := ffmpegReady s;
     installingFfmpeg := installingFfmpeg s; clock := clock s;
     timer := timer s; inflight := inflight s; calls := calls s |}.

Definition set_outputDir (v : string) (s : App) : App :=
  {| videoInput := videoInput s; startTime := startTime s;
     endTime := endTime s; outputDir := v; isDownloading := isDownloading s;
     progress := progress s; toast := toast s; preview := preview s;
     fetchingInfo := fetchingInfo s;
     availableQualities := availableQualities s;
     selectedQuality := selectedQuality s; ffmpegReady := ffmpegReady s;
     installingFfmpeg := installingFfmpeg s; clock := clock s;
     timer := timer s; inflight := inflight s; calls := calls s |}.

Definition set_isDownloading (v : bool) (s : App) : App :=
  {| videoInput := videoInput s; startTime := startTime s;
     endTime := endTime s; outputDir := outputDir s; isDownloading := v;
     progress := progress s; toast := toast s; preview := preview s;
     fetchingInfo := fetchingInfo s;
     availableQualities := availableQualities s;
     selectedQuality := selectedQuality s; ffmpegReady := ffmpegReady s;
     installingFfmpeg := installingFfmpeg s; clock := clock s;
     timer := timer s; inflight := inflight s; calls := calls s |}.

Definition set_progress (v : option DownloadProgress) (s : App) : App :=
  {| videoInput := videoInput s; startTime := startTime s;
     endTime := endTime s; outputDir := outputDir s;
     isDownloading := isDownloading s; progress := v; toast := toast s;
     preview := preview s; fetchingInfo := fetchingInfo s;
     availableQualities := availableQualities s;
     selectedQuality := selectedQuality s; ffmpegReady := ffmpegReady s;
     installingFfmpeg := installingFfmpeg s; clock := clock s;
     timer := timer s; inflight := inflight s; calls := calls s |}.

Definition set_toast (v : option ToastData) (s : App) : App :=
  {| videoInput := videoInput s; startTime := startTime s;
     endTime := endTime s; outputDir := outputDir s;
     isDownloading := isDownloading s; progress := progress s; toast := v;
     preview := preview s; fetchingInfo := fetchingInfo s;
     availableQualities := availableQualities s;
     selectedQuality := selectedQuality s; ffmpegReady := ffmpegReady s;
     installingFfmpeg := installingFfmpeg s; clock := clock s;
     timer := timer s; inflight := inflight s; calls := calls s |}.

Definition set_preview (v : option PreviewInfo) (s : App) : App :=
  {| videoInput := videoInput s; startTime := startTime s;
     endTime := endTime s; outputDir := outputDir s;
     isDownloading := isDownloading s; progress := progress s;
     toast := toast s; preview := v; fetchingInfo := fetchingInfo s;
     availableQualities := availableQualities s;
     selectedQuality := selectedQuality s; ffmpegReady := ffmpegReady s;
     installingFfmpeg := installingFfmpeg s; clock := clock s;
     timer := timer s; inflight := inflight s; calls := calls s |}.

Definition set_fetchingInfo (v : bool) (s : App) : App :=
  {| videoInput := videoInput s; startTime := startTime s;
     endTime := endTime s; outputDir := outputDir s;
     isDownloading := isDownloading s; progress := progress s;
     toast := toast s; preview := preview s; fetchingInfo := v;
     availableQualities := availableQualities s;
     selectedQuality := selectedQuality s; ffmpegReady := ffmpegReady s;
     installingFfmpeg := installingFfmpeg s; clock := clock s;
     timer := timer s; inflight := inflight s; calls := calls s |}.

Definition set_availableQualities (v : list VideoQuality) (s : App) : App :=
  {| videoInput := videoInput s; startTime := startTime s;
     endTime := endTime s; outputDir := outputDir s;
     isDownloading := isDownloading s; progress := progress s;
     toast := toast s; preview := preview s; fetchingInfo := fetchingInfo s;
     availableQualities := v; selectedQuality := selectedQuality s;
     ffmpegReady := ffmpegReady s; installingFfmpeg := installingFfmpeg s;
     clock := clock s; timer := timer s; inflight := inflight s;
     calls := calls s |}.

Definition set_selectedQuality (v : string) (s : App) : App :=
  {| videoInput := videoInput s; startTime := startTime s;
     endTime := endTime s; outputDir := outputDir s;
     isDownloading := isDownloading s; progress := progress s;
     toast := toast s; preview := preview s; fetchingInfo := fetchingInfo s;
     availableQualities := availableQualities s; selectedQuality := v;
     ffmpegReady := ffmpegReady s; installingFfmpeg := installingFfmpeg s;
     clock := clock s; timer := timer s; inflight := inflight s;
     calls := calls s |}.

Definition set_ffmpegReady (v : option bool) (s : App) : App :=
  {| videoInput := videoInput s; startTime := startTime s;
     endTime := endTime s; outputDir := outputDir s;
     isDownloading := isDownloading s; progress := progress s;
     toast := toast s; preview := preview s; fetchingInfo := fetchingInfo s;
     availableQualities := availableQualities s;
     selectedQuality := selectedQuality s; ffmpegReady := v;
     installingFfmpeg := installingFfmpeg s; clock := clock s;
     timer := timer s; inflight := inflight s; calls := calls s |}.

Definition set_installingFfmpeg (v : bool) (s : App) : App :=
  {| videoInput := videoInput s; startTime := startTime s;
     endTime := endTime s; outputDir := outputDir s;
     isDownloading := isDownloading s; progress := progress s;
     toast := toast s; preview := preview s; fetchingInfo := fetchingInfo s;
     availableQualities := availableQualities s;
     selectedQuality := selectedQuality s; ffmpegReady := ffmpegReady s;
     installingFfmpeg := v; clock := clock s; timer := timer s;
     inflight := inflight s; calls := calls s |}.

Definition set_clock (v : nat) (s : App) : App :=
  {| videoInput := videoInput s; startTime := startTime s;
     endTime := endTime s; outputDir := outputDir s;
     isDownloading := isDownloading s; progress := progress s;
     toast := toast s; preview := preview s; fetchingInfo := fetchingInfo s;
     availableQualities := availableQualities s;
     selectedQuality := selectedQuality s; ffmpegReady := ffmpegReady s;
     installingFfmpeg := installingFfmpeg s; clock := v; timer := timer s;
     inflight := inflight s; calls := calls s |}.

Definition set_timer (v : option (nat * MediaRef)) (s : App) : App :=
  {| videoInput := videoInput s; startTime := startTime s;
     endTime := endTime s; outputDir := outputDir s;
     isDownloading := isDownloading s; progress := progress s;
     toast := toast s; preview := preview s; fetchingInfo := fetchingInfo s;
     availableQualities := availableQualities s;
     selectedQuality := selectedQuality s; ffmpegReady := ffmpegReady s;
     installingFfmpeg := installingFfmpeg s; clock := clock s; timer := v;
     inflight := inflight s; calls := calls s |}.

Definition set_inflight (v : list MediaRef) (s : App) : App :=
  {| videoInput := videoInput s; startTime := startTime s;
     endTime := endTime s; outputDir := outputDir s;
     isDownloading := isDownloading s; progress := progress s;
     toast := toast s; preview := preview s; fetchingInfo := fetchingInfo s;
     availableQualities := availableQualities s;
     selectedQuality := selectedQuality s; ffmpegReady := ffmpegReady s;
     installingFfmpeg := installingFfmpeg s; clock := clock s;
     timer := timer s; inflight := v; calls := calls s |}.

Definition set_calls (v : list Command) (s : App) : App :=
  {| videoInput := videoInput s; startTime := startTime s;
     endTime := endTime s; outputDir := outputDir s;
     isDownloading := isDownloading s; progress := progress s;
     toast := toast s; preview := preview s; fetchingInfo := fetchingInfo s;
     availableQualities := availableQualities s;
     selectedQuality := selectedQuality s; ffmpegReady := ffmpegReady s;
     installingFfmpeg := installingFfmpeg s; clock := clock s;
     timer := timer s; inflight := inflight s; calls := v |}.

Definition initial : App :=
  {| videoInput := ""; startTime := "00:00:00"; endTime := "";
     outputDir := ""; isDownloading := false; progress := None;
     toast := None; preview := None; fetchingInfo := false;
     availableQualities := []; selectedQuality := "auto";
     ffmpegReady := None; installingFfmpeg := false; clock := O;
     timer := None; inflight := []; calls := [] |}.

(** ** Values derived at each render *)

Definition parsed (s : App) : ParsedInput := parseInput (videoInput s).

Definition isClip (s : App) : bool :=
  match parsed s with
  | Some p => RefKind_eqb (type p) clip
  | None => false
  end.

(** [preview?.duration] *)
Definition preview_duration (s : App) : option Z :=
  match preview s with
  | Some p => duration p
  | None => None
  end.

(** [preview?.duration] when it is truthy: present and not [0]. *)
Definition truthy_duration (s : App) : option Z :=
  match preview_duration s with
  | Some d => if d =? 0 then None else Some d
  | None => None
  end.

Definition isBusy (s : App) : bool := isDownloading s || installingFfmpeg s.

Definition needsFfmpeg (s : App) : bool :=
  negb (isClip s) &&
  match ffmpegReady s with
  | Some false => true
  | _ => false
  end.

(** ** Range validator *)

Inductive RangeError : Type := start_not_before_end.

Definition endSec (s : App) (d : Z) : JS.number :=
  if nonempty (endTime s) then hmsToSeconds (endTime s) else JS.Num d.

Definition timeRangeError (s : App) : option RangeError :=
  if isClip s then None
  else
    match truthy_duration s with
    | None => None
    | Some d =>
        if JS.ge (hmsToSeconds (startTime s)) (endSec s d)
        then Some start_not_before_end
        else None
    end.

(** The body of the end-time effect: the value it passes to [setEndTime],
    if it calls it. *)
Definition end_effect (s : App) : option string :=
  match truthy_duration s with
  | None => None
  | Some d =>
      if negb (nonempty (endTime s)) || isClip s then None
      else if JS.gt (hmsToSeconds (endTime s)) (JS.Num d)
           then Some (secondsToHms (JS.Num d))
           else None
  end.

(** The body of the start-time effect. *)
Definition start_effect (s : App) : option string :=
  match truthy_duration s with
  | None => None
  | Some d =>
      if negb (nonempty (startTime s)) || isClip s then None
      else if JS.ge (hmsToSeconds (startTime s)) (JS.Num d)
           then Some (secondsToHms (JS.max (JS.Num 0) (JS.Num (d - 60))))
           else None
  end.

(** ** Effects and the commit of a render

    An effect whose dependency list differs from the previous render's runs
    against the values of the current render; the state updates it requests
    are applied afterwards and cause a further render, until a render
    changes nothing. *)

Definition QUIET_PERIOD : nat := 500.

(** The resolver effect (dependencies [[parsed?.id, parsed?.type]]): the
    clean-up of its previous run clears the pending timer; then either the
    preview is cleared or a new timer is armed, which captures [parsed]. *)
Definition resolver_effect (cur acc : App) : App :=
  match parsed cur with
  | None => set_preview None (set_timer None acc)
  | Some p => set_timer (Some ((clock cur + QUIET_PERIOD)%nat, p)) acc
  end.

Definition option_Z_eqb (a b : option Z) : bool :=
  match a, b with
  | Some x, Some y => x =? y
  | None, None => true
  | _, _ => false
  end.

Definition same_end_deps (a b : App) : bool :=
  String.eqb (endTime a) (endTime b)
  && option_Z_eqb (preview_duration a) (preview_duration b)
  && Bool.eqb (isClip a) (isClip b).

Definition same_start_deps (a b : App) : bool :=
  String.eqb (startTime a) (startTime b)
  && option_Z_eqb (preview_duration a) (preview_duration b)
  && Bool.eqb (isClip a) (isClip b).

Definition effects_pass (prev cur : App) : App :=
  let s1 := if same_deps (parsed prev) (parsed cur) then cur
            else resolver_effect cur cur in
  let s2 := if same_end_deps prev cur then s1
            else match end_effect cur with
                 | Some v => set_endTime v s1
                 | None => s1
                 end in
  if same_start_deps prev cur then s2
  else match start_effect cur with
       | Some v => set_startTime v s2
       | None => s2
       end.

Fixpoint settle (fuel : nat) (prev cur : App) : App :=
  match fuel with
  | O => cur
  | S f => settle f cur (effects_pass prev cur)
  end.

Definition commit (prev cur : App) : App := settle 2 prev cur.

(** ** Metadata resolver *)

Definition fetch_command (p : MediaRef) : Command :=
  match type p with
  | video => fetch_video_info (id p)
  | clip => fetch_clip_info (id p)
  end.

(** The [setTimeout] callback, with the [parsed] value it captured. *)
Definition on_timer (p : MediaRef) (s : App) : App :=
  set_fetchingInfo true
    (set_inflight (inflight s ++ [p])
       (set_calls (calls s ++ [fetch_command p]) (set_timer None s))).

Definition elapse (dt : nat) (s : App) : App :=
  let s1 := set_clock (clock s + dt)%nat s in
  match timer s1 with
  | Some (due, p) => if (due <=? clock s1)%nat then on_timer p s1 else s1
  | None => s1
  end.

(** [[...qualities].sort((a, b) => b.bandwidth - a.bandwidth)]: the sort is
    stable, so among equal bandwidths the earlier element stays first. *)
Fixpoint insert_quality (x : VideoQuality) (l : list VideoQuality)
  : list VideoQuality :=
  match l with
  | [] => [x]
  | y :: r => if bandwidth y <=? bandwidth x then x :: y :: r
              else y :: insert_quality x r
  end.

Fixpoint sortedQualities (l : list VideoQuality) : list VideoQuality :=
  match l with
  | [] => []
  | x :: r => insert_quality x (sortedQualities r)
  end.

(** The [.then] handler of [fetch_video_info]. *)
Definition video_info_loaded (info : VodInfo) (s : App) : App :=
  let s1 := set_preview (Some {| title := vod_title info;
                                 channel := vod_channel info;
                                 thumbnail := vod_thumbnail info;
                                 duration := Some (vod_duration info) |}) s in
  let s2 := if 0 <? vod_duration info
            then set_endTime (secondsToHms (JS.Num (vod_duration info))) s1
            else s1 in
  match qualities info with
  | _ :: _ =>
      set_selectedQuality "auto"
        (set_availableQualities (sortedQualities (qualities info)) s2)
  | [] => set_availableQualities [] s2
  end.

(** The [.catch] handler of [fetch_video_info]. *)
Definition video_info_failed (s : App) : App :=
  set_availableQualities [] (set_preview None s).

(** The [.then] handler of [fetch_clip_info]. *)
Definition clip_info_loaded (info : ClipInfoResp) (s : App) : App :=
  set_preview (Some {| title := clip_title info;
                       channel := clip_channel info;
                       thumbnail := clip_thumbnail info;
                       duration := None |}) s.

Definition clip_info_failed (s : App) : App := set_preview None s.

Definition MediaRef_eqb (a b : MediaRef) : bool :=
  RefKind_eqb (type a) (type b) && String.eqb (id a) (id b).

Fixpoint remove_first (p : MediaRef) (l : list MediaRef) : list MediaRef :=
  match l with
  | [] => []
  | x :: r => if MediaRef_eqb p x then r else x :: remove_first p r
  end.

Definition awaiting (p : MediaRef) (s : App) : bool :=
  existsb (MediaRef_eqb p) (inflight s).

(** The promise of a fetch started for [p] settles; [.finally] clears the
    fetching flag. *)
Definition video_info_settled (p : MediaRef) (res : option VodInfo) (s : App)
  : App :=
  if awaiting p s && RefKind_eqb (type p) video then
    let s1 := set_inflight (remove_first p (inflight s)) s in
    let s2 := match res with
              | Some info => video_info_loaded info s1
              | None => video_info_failed s1
              end in
    set_fetchingInfo false s2
  else s.

Definition clip_info_settled (p : MediaRef) (res : option ClipInfoResp)
  (s : App) : App :=
  if awaiting p s && RefKind_eqb (type p) clip then
    let s1 := set_inflight (remove_first p (inflight s)) s in
    let s2 := match res with
              | Some info => clip_info_loaded info s1
              | None => clip_info_failed s1
              end in
    set_fetchingInfo false s2
  else s.

(** ** Quality selector: the size estimate shown with each option *)

(** [Math.round(n / 8 / 1_000_000)] for an integer [n]: the nearest
    integer, a half rounding up. *)
Definition round_megabytes (n : Z) : Z := (n + 4000000) / 8000000.

(** The text under a quality button.  [toFixed(1)] chooses its digit from
    the binary representation of the quotient, so the two labels that use
    it keep the operand rather than the digits. *)
Inductive SizeLabel : Type :=
| label_MB (mb : Z)            (* ~<mb>MB *)
| label_GB (mb : Z)            (* ~<(mb / 1000).toFixed(1)>GB *)
| label_Mbps (bandwidth : Z).  (* <(bandwidth / 1_000_000).toFixed(1)>Mbps *)

Definition downloadDuration (s : App) : JS.number :=
  let startSec := hmsToSeconds (startTime s) in
  let endSec := if nonempty (endTime s) then hmsToSeconds (endTime s)
                else JS.Num (match preview_duration s with
                             | Some d => d
                             | None => 0
                             end) in
  JS.max (JS.Num 0) (JS.sub endSec startSec).

(** [null] when the range duration is [0] or [NaN]. *)
Definition estimatedSizeMB (quality : VideoQuality) (dd : JS.number)
  : option Z :=
  match dd with
  | JS.Num d => if d =? 0 then None
                else Some (round_megabytes (bandwidth quality * d))
  | JS.NaN => None
  end.

Definition formatSize (mb : option Z) : option SizeLabel :=
  match mb with
  | None => None
  | Some m => if 1000 <=? m then Some (label_GB m) else Some (label_MB m)
  end.

Definition size_label (quality : VideoQuality) (dd : JS.number) : SizeLabel :=
  match formatSize (estimatedSizeMB quality dd) with
  | Some l => l
  | None => label_Mbps (bandwidth quality)
  end.

(** The labels of the quality card, in display order. *)
Definition quality_labels (s : App) : list SizeLabel :=
  map (fun q => size_label q (downloadDuration s)) (availableQualities s).

(** ** Download session manager *)

Definition showToast (t : ToastType) (m : ToastMessage) (d : option string)
  (s : App) : App :=
  set_toast (Some {| toast_type := t; toast_message := m; detail := d |}) s.

(** [handleDownload] up to its [await]. *)
Definition handleDownload (s : App) : App :=
  match parsed s with
  | None => showToast error missing_identifier None s
  | Some p =>
      if negb (nonempty (outputDir s))
      then showToast error missing_destination None s
      else
        let s1 := set_progress None
                    (set_toast None (set_isDownloading true s)) in
        let cmd :=
          match type p with
          | clip => download_clip_cmd (id p) (outputDir s)
          | video =>
              download_vod (id p)
                (if nonempty (startTime s) then startTime s else "00:00:00")
                (endTime s)
                (outputDir s)
                (if String.eqb (selectedQuality s) "auto" then None
                 else Some (selectedQuality s))
          end in
        set_calls (calls s1 ++ [cmd]) s1
  end.

(** [handleDownload] after its [await]: the backend answered with an
    output path ([inl]) or a failure ([inr]). *)
Definition download_settled (res : string + string) (s : App) : App :=
  if isDownloading s then
    set_isDownloading false
      (match res with
       | inl outputPath => showToast success download_complete
                             (Some outputPath) s
       | inr e => showToast error download_failed (Some e) s
       end)
  else s.

(** The [disabled] attribute of the download button. *)
Definition download_disabled (s : App) : bool :=
  isBusy s
  || (needsFfmpeg s && negb (isClip s))
  || match timeRangeError s with
     | Some _ => true
     | None => false
     end.

(** A click on the download button: a disabled button dispatches no click
    event, otherwise [onClick] is [handleDownload]. *)
Definition click_download (s : App) : App :=
  if download_disabled s then s else handleDownload s.

(** [handleInstallFfmpeg], before and after its [await]; the banner that
    carries its button is rendered when [needsFfmpeg && !installingFfmpeg]. *)
Definition handleInstallFfmpeg (s : App) : App :=
  let s1 := set_progress None (set_toast None (set_installingFfmpeg true s)) in
  set_calls (calls s1 ++ [install_ffmpeg]) s1.

Definition click_install (s : App) : App :=
  if needsFfmpeg s && negb (installingFfmpeg s) then handleInstallFfmpeg s
  else s.

Definition install_settled (res : option string) (s : App) : App :=
  if installingFfmpeg s then
    set_installingFfmpeg false
      (match res with
       | None => set_ffmpegReady (Some true) s
       | Some e => showToast error ffmpeg_install_failed (Some e) s
       end)
  else s.

(** ** Input handlers *)

(** [onChange] of the URL field, which is disabled while busy. *)
Definition change_videoInput (text : string) (s : App) : App :=
  if isBusy s then s else set_videoInput text s.

(** [onChange] of the two time fields: values longer than 8 are dropped. *)
Definition change_startTime (val : string) (s : App) : App :=
  if isBusy s then s
  else if (String.length val <=? 8)%nat then set_startTime val s else s.

Definition change_endTime (val : string) (s : App) : App :=
  if isBusy s then s
  else if (String.length val <=? 8)%nat then set_endTime val s else s.

(** The guard [e.key >= "0" && e.key <= "9"] of [onKeyDown], a comparison
    of strings. *)
Definition key_in_digit_range (key : string) : bool :=
  String.leb "0" key && String.leb key "9".

Definition keydown_startTime (key : string) (cursorPos : Z) (s : App) : App :=
  if isBusy s then s
  else if key_in_digit_range key
       then set_startTime (handleTimeInput (startTime s) key cursorPos) s
       else s.

Definition keydown_endTime (key : string) (cursorPos : Z) (s : App) : App :=
  if isBusy s then s
  else if key_in_digit_range key
       then set_endTime
              (handleTimeInput
                 (if nonempty (endTime s) then endTime s else "00:00:00")
                 key cursorPos) s
       else s.

(** Backspace in a time field: the field under the caret is shifted right,
    a ["0"] entering on the left ([slice_first] is [slice(0, 1)]). *)
Definition slice_first (s : string) : string :=
  match s with
  | String c _ => String c EmptyString
  | EmptyString => EmptyString
  end.

Definition backspace_time (value : string) (cursorPos : Z) : string :=
  let '(hh, mm, ss) := parseTimeString value in
  match field_of_cursor cursorPos with
  | hours => ("0" ++ slice_first hh) ++ ":" ++ mm ++ ":" ++ ss
  | minutes => hh ++ ":" ++ ("0" ++ slice_first mm) ++ ":" ++ ss
  | seconds => hh ++ ":" ++ mm ++ ":" ++ ("0" ++ slice_first ss)
  end.

(** A click in a time field resets the field under the caret. *)
Definition click_time (value : string) (clickPos : Z) : string :=
  let '(hh, mm, ss) := parseTimeString value in
  match field_of_cursor clickPos with
  | hours => "00" ++ ":" ++ mm ++ ":" ++ ss
  | minutes => hh ++ ":" ++ "00" ++ ":" ++ ss
  | seconds => hh ++ ":" ++ mm ++ ":" ++ "00"
  end.

Definition or_zero_time (value : string) : string :=
  if nonempty value then value else "00:00:00".

Definition backspace_startTime (cursorPos : Z) (s : App) : App :=
  if isBusy s then s
  else set_startTime (backspace_time (startTime s) cursorPos) s.

Definition backspace_endTime (cursorPos : Z) (s : App) : App :=
  if isBusy s then s
  else set_endTime (backspace_time (or_zero_time (endTime s)) cursorPos) s.

Definition click_startTime (clickPos : Z) (s : App) : App :=
  if isBusy s then s
  else set_startTime (click_time (startTime s) clickPos) s.

Definition click_endTime (clickPos : Z) (s : App) : App :=
  if isBusy s then s
  else set_endTime (click_time (or_zero_time (endTime s)) clickPos) s.

Definition focus_startTime (s : App) : App :=
  if isBusy s then s
  else if negb (JS.includes (startTime s) ":")
       then set_startTime "00:00:00" s else s.

Definition focus_endTime (s : App) : App :=
  if isBusy s then s
  else if negb (nonempty (endTime s)) || negb (JS.includes (endTime s) ":")
       then set_endTime "00:00:00" s else s.

Definition select_quality (q : string) (s : App) : App :=
  if isBusy s then s else set_selectedQuality q s.

Definition select_outputDir (dir : string) (s : App) : App :=
  if isBusy s then s
  else if nonempty dir then set_outputDir dir s else s.

(** ** The controller as a transition system *)

Inductive Event : Type :=
| ChangeVideoInput (text : string)
| ChangeStartTime (val : string)
| ChangeEndTime (val : string)
| KeyStartTime (key : string) (cursorPos : Z)
| KeyEndTime (key : string) (cursorPos : Z)
| BackspaceStartTime (cursorPos : Z)
| BackspaceEndTime (cursorPos : Z)
| ClickStartTime (clickPos : Z)
| ClickEndTime (clickPos : Z)
| FocusStartTime
| FocusEndTime
| SelectQuality (q : string)
| SelectOutputDir (dir : string)
| Elapse (dt : nat)
| VideoInfoSettled (p : MediaRef) (res : option VodInfo)
| ClipInfoSettled (p : MediaRef) (res : option ClipInfoResp)
| FfmpegChecked (ready : bool)
| ProgressReceived (p : DownloadProgress)
| ClickDownload
| DownloadSettled (res : string + string)
| ClickInstall
| InstallSettled (res : option string).

Definition handle (e : Event) (s : App) : App :=
  match e with
  | ChangeVideoInput text => change_videoInput text s
  | ChangeStartTime val => change_startTime val s
  | ChangeEndTime val => change_endTime val s
  | KeyStartTime key pos => keydown_startTime key pos s
  | KeyEndTime key pos => keydown_endTime key pos s
  | BackspaceStartTime pos => backspace_startTime pos s
  | BackspaceEndTime pos => backspace_endTime pos s
  | ClickStartTime pos => click_startTime pos s
  | ClickEndTime pos => click_endTime pos s
  | FocusStartTime => focus_startTime s
  | FocusEndTime => focus_endTime s
  | SelectQuality q => select_quality q s
  | SelectOutputDir dir => select_outputDir dir s
  | Elapse dt => elapse dt s
  | VideoInfoSettled p res => video_info_settled p res s
  | ClipInfoSettled p res => clip_info_settled p res s
  | FfmpegChecked ready => set_ffmpegReady (Some ready) s
  | ProgressReceived p => set_progress (Some p) s
  | ClickDownload => click_download s
  | DownloadSettled res => download_settled res s
  | ClickInstall => click_install s
  | InstallSettled res => install_settled res s
  end.

(** One event: its handler, then the render it causes with its effects. *)
Definition step (s : App) (e : Event) : App := commit s (handle e s).

Definition run (es : list Event) (s : App) : App := fold_left step es s.

(** The download commands among the backend commands invoked so far. *)
Definition is_download (c : Command) : bool :=
  match c with
  | download_clip_cmd _ _ | download_vod _ _ _ _ _ => true
  | _ => false
  end.

Definition downloads (s : App) : list Command := filter is_download (calls s).

(** ** The specification's wording, for comparison with the code *)

(** [textToSeconds] as the specification words it: every segment is an
    integer, [0] on a parse failure and [0] when the segment is missing. *)
Definition spec_segment (parts : list string) (i : nat) : Z :=
  match nth_error parts i with
  | Some p => match JS.parseInt p with
              | JS.Num z => z
              | JS.NaN => 0
              end
  | None => 0
  end.

Definition textToSeconds_spec (t : string) : Z :=
  if negb (JS.includes t ":") then 0
  else
    let parts := JS.split ":" t in
    spec_segment parts 0 * 3600 + spec_segment parts 1 * 60
    + spec_segment parts 2.

(** The sub-field under a caret as the specification words it: [[0,2)] is
    hours, [[2,5)] is minutes, the rest is seconds. *)
Definition spec_field_of_caret (p : Z) : Field :=
  if p <? 2 then hours
  else if p <? 5 then minutes
  else seconds.

Definition digit_key_spec (buffer key : string) (p : Z) : string :=
  enter_digit (spec_field_of_caret p) buffer key.

(** ** Vocabulary of the statements, sample data and sample runs *)

(** The value of one segment: [parseInt(p) || 0]. *)
Definition segment_value (p : string) : JS.number :=
  JS.or_else (JS.parseInt p) (JS.Num 0).

Definition digit_keys : list string :=
  ["0"; "1"; "2"; "3"; "4"; "5"; "6"; "7"; "8"; "9"].

(** An effect is at rest in a state when running its body there would not
    change the state: it calls no setter, or sets the value already held. *)
Definition end_at_rest (s : App) : Prop :=
  forall v, end_effect s = Some v -> v = endTime s.

Definition start_at_rest (s : App) : Prop :=
  forall v, start_effect s = Some v -> v = startTime s.

Definition at_rest (s : App) : Prop := end_at_rest s /\ start_at_rest s.


Definition vod_of_two_minutes : VodInfo :=
  mkVodInfo "title" "channel" 120 "thumbnail" [].


(** A state in which a clip download is in flight. *)
Definition downloading_state : App :=
  set_isDownloading true
    (set_outputDir "/tmp" (set_videoInput "clip1" initial)).

(** Descending by bandwidth. *)
Definition by_bandwidth_desc (a b : VideoQuality) : Prop :=
  bandwidth b <= bandwidth a.

(** The preview built from the answer to [fetch_video_info]. *)
Definition preview_of_vod (info : VodInfo) : PreviewInfo :=
  {| title := vod_title info; channel := vod_channel info;
     thumbnail := vod_thumbnail info; duration := Some (vod_duration info) |}.

Definition vod_with_qualities : VodInfo :=
  mkVodInfo "first" "channel" 3661 "thumbnail"
    [mkQuality "480p" 854 480 3000000 "480p";
     mkQuality "1080p" 1920 1080 8000000 "1080p"].

Definition vod_without_qualities : VodInfo :=
  mkVodInfo "second" "channel" 600 "thumbnail" [].

(** The first recording is resolved and its 1080p option chosen; then the
    input is changed to a second recording and its fetch is started. *)
Definition reselect_run : list Event :=
  [ChangeVideoInput "111"; Elapse 500;
   VideoInfoSettled (mkRef video "111") (Some vod_with_qualities);
   SelectQuality "1080p";
   ChangeVideoInput "222"; Elapse 500].

(** The stale-result property as the specification states it: when the
    answer to a fetch started for [p] arrives while the current reference
    is another one (or none), the preview, the end-time text, the quality
    set and the selection stay as they were. *)
Definition late_result_discarded : Prop :=
  forall (es : list Event) (p : MediaRef) (info : VodInfo),
    awaiting p (run es initial) = true ->
    same_deps (parsed (run es initial)) (Some p) = false ->
    preview (step (run es initial) (VideoInfoSettled p (Some info)))
    = preview (run es initial)
    /\ endTime (step (run es initial) (VideoInfoSettled p (Some info)))
       = endTime (run es initial)
    /\ availableQualities
         (step (run es initial) (VideoInfoSettled p (Some info)))
       = availableQualities (run es initial)
    /\ selectedQuality
         (step (run es initial) (VideoInfoSettled p (Some info)))
       = selectedQuality (run es initial).

(** The fetch for recording 111 is started, then the input is changed to
    recording 222 before the answer arrives. *)
Definition superseded_run : list Event :=
  [ChangeVideoInput "111"; Elapse 500; ChangeVideoInput "222"].

(** A burst after its first change: each further change of the input
    comes [gap] milliseconds after the previous one. *)
Fixpoint burst_events (rest : list (nat * string)) : list Event :=
  match rest with
  | [] => []
  | (gap, text) :: r => Elapse gap :: ChangeVideoInput text :: burst_events r
  end.

(** Every text of the list parses to another reference (by kind and id)
    than the one before it, starting from [prev]. *)
Fixpoint changes (prev : ParsedInput) (texts : list string) : Prop :=
  match texts with
  | [] => True
  | t :: r => same_deps prev (parseInput t) = false
              /\ changes (parseInput t) r
  end.

(** The timer that is pending right after the input became [text] at time
    [now]. *)
Definition armed (now : nat) (text : string) : option (nat * MediaRef) :=
  match parseInput text with
  | Some p => Some ((now + QUIET_PERIOD)%nat, p)
  | None => None
  end.


(** ** Caret movement after a digit key *)

(** The caret position set after a digit key was handled: the next digit
    position, colons skipped, [8] at the end. *)
Definition next_caret (cursorPos : Z) : Z :=
  if cursorPos =? 0 then 1
  else if cursorPos =? 1 then 3
  else if cursorPos =? 2 then 3
  else if cursorPos =? 3 then 4
  else if cursorPos =? 4 then 6
  else if cursorPos =? 5 then 6
  else if cursorPos =? 6 then 7
  else if cursorPos =? 7 then 8
  else 8.

(** A digit key in a time field: the new value and the new caret. *)
Definition type_digit (field : string * Z) (key : string) : string * Z :=
  (handleTimeInput (fst field) key (snd field), next_caret (snd field)).

Definition type_digits (keys : list string) (field : string * Z)
  : string * Z :=
  fold_left type_digit keys field.

(** ** Vocabulary of the further properties *)

(** A field of a time text: no colon, at least two characters. *)
Definition field_ok (f : string) : Prop :=
  JS.includes f ":" = false /\ (2 <= String.length f)%nat.

Definition key_of (k : ascii) : string := String k EmptyString.

(** The events by which the user edits the form (all but the download and
    install buttons). *)
Definition edits_form (e : Event) : bool :=
  match e with
  | ChangeVideoInput _ | ChangeStartTime _ | ChangeEndTime _
  | KeyStartTime _ _ | KeyEndTime _ _
  | BackspaceStartTime _ | BackspaceEndTime _
  | ClickStartTime _ | ClickEndTime _
  | FocusStartTime | FocusEndTime
  | SelectQuality _ | SelectOutputDir _ => true
  | _ => false
  end.

(** The number of download answers among the events. *)
Fixpoint count_settled (es : list Event) : nat :=
  match es with
  | [] => O
  | DownloadSettled _ :: r => S (count_settled r)
  | _ :: r => count_settled r
  end.

(** What a download command is expected to carry: a video download has a
    start text and never the pseudo-id ["auto"] as its quality. *)
Definition command_ok (c : Command) : Prop :=
  match c with
  | download_vod _ start _ _ q => start <> "" /\ q <> Some "auto"
  | _ => True
  end.

(** The masked form [dd:dd:dd] of a time field, as a test. *)
Definition is_time_buffer (t : string) : bool :=
  match t with
  | String h1 (String h2 (String c1 (String m1 (String m2 (String c2
      (String s1 (String s2 EmptyString))))))) =>
      JS.is_digit h1 && JS.is_digit h2 && Ascii.eqb c1 ":"
      && JS.is_digit m1 && JS.is_digit m2 && Ascii.eqb c2 ":"
      && JS.is_digit s1 && JS.is_digit s2
  | _ => false
  end.

(** The three fields [parseTimeString] reads. *)
Definition hh_of (v : string) : string := fst (fst (parseTimeString v)).
Definition mm_of (v : string) : string := snd (fst (parseTimeString v)).
Definition ss_of (v : string) : string := snd (parseTimeString v).

Definition not_space (c : ascii) : bool := negb (JS.is_space c).

(** The download commands invoked exceed the answers by at most one, and
    by none when no download is flagged. *)
Definition in_flight_bound (s : App) (answered : nat) : Prop :=
  (List.length (downloads s)
   <= answered + (if isDownloading s then 1 else 0))%nat.


(** ** Editing the start field inside the component *)

(** A start text the start clamp leaves alone in [s]: once it is the value
    of the field, the body of the start-time effect sets nothing.  This is
    so when no duration is known, for a Clip reference, and for a text that
    decodes to less than the duration. *)
Definition start_unclamped (s : App) (t : string) : bool :=
  match start_effect (set_startTime t s) with
  | None => true
  | Some _ => false
  end.

(** Digit keys typed into the start field one after the other, the caret
    of each key being where the handler put it after the key before. *)
Fixpoint start_keys (keys : list string) (cursorPos : Z) : list Event :=
  match keys with
  | [] => []
  | key :: r =>
      KeyStartTime key cursorPos :: start_keys r (next_caret cursorPos)
  end.

(** The texts a field goes through while the keys are typed. *)
Fixpoint typed_texts (keys : list string) (field : string * Z)
  : list string :=
  match keys with
  | [] => []
  | key :: r =>
      fst (type_digit field key) :: typed_texts r (type_digit field key)
  end.

(** A recording of 3661 seconds is resolved and the start text set to
    twelve minutes. *)
Definition editing_state : App :=
  run [ChangeVideoInput "111"; Elapse 500;
       VideoInfoSettled (mkRef video "111") (Some vod_with_qualities);
       ChangeStartTime "00:12:00"] initial.

(** * Properties *)

(** ** Decimal digits: printing and reading back *)

Ltac digit_cases d :=
  let H := fresh "H" in
  assert (H : d = 0 \/ d = 1 \/ d = 2 \/ d = 3 \/ d = 4 \/ d = 5 \/ d = 6
              \/ d = 7 \/ d = 8 \/ d = 9) by lia;
  repeat (destruct H as [H | H]); subst d.

Lemma digit_char_is_digit (d : Z) :
  0 <= d < 10 -> JS.is_digit (JS.digit_char d) = true.
Proof. intros Hd. digit_cases d; reflexivity. Qed.

Lemma digit_val_char (d : Z) :
  0 <= d < 10 -> JS.digit_val (JS.digit_char d) = d.
Proof. intros Hd. digit_cases d; reflexivity. Qed.

Lemma code_range (c : ascii) : 0 <= JS.code c < 256.
Proof.
  unfold JS.code. pose proof (nat_ascii_bounded c). lia.
Qed.

Lemma code_inj (a b : ascii) : JS.code a = JS.code b -> a = b.
Proof.
  unfold JS.code. intros H. apply Nat2Z.inj in H.
  rewrite <- (ascii_nat_embedding a), <- (ascii_nat_embedding b).
  now rewrite H.
Qed.

Lemma eqb_code (a b : ascii) : Ascii.eqb a b = (JS.code a =? JS.code b).
Proof.
  destruct (Ascii.eqb_spec a b) as [-> | Hne].
  - now rewrite Z.eqb_refl.
  - symmetry. apply Z.eqb_neq. intros H. now apply Hne, code_inj.
Qed.

(** Turns the boolean character tests of a goal into linear arithmetic over
    character codes. *)
Ltac char_arith :=
  unfold JS.is_digit, JS.is_space, JS.is_x, JS.hex_val, not_slash_or_query in *;
  rewrite ?eqb_code in *;
  repeat match goal with
         | H : _ && _ = true |- _ => apply andb_true_iff in H; destruct H
         | H : _ || _ = false |- _ => apply orb_false_iff in H; destruct H
         | H : (_ <=? _) = true |- _ => apply Z.leb_le in H
         | H : (_ <=? _) = false |- _ => apply Z.leb_gt in H
         | H : (_ =? _) = true |- _ => apply Z.eqb_eq in H
         | H : (_ =? _) = false |- _ => apply Z.eqb_neq in H
         end.

Lemma digit_not_space (c : ascii) :
  JS.is_digit c = true -> JS.is_space c = false.
Proof.
  intros H. char_arith. change (JS.code " ") with 32.
  repeat (apply orb_false_iff; split); apply Z.eqb_neq; lia.
Qed.

Lemma digit_not_char (c x : ascii) :
  JS.is_digit c = true -> JS.is_digit x = false -> Ascii.eqb c x = false.
Proof.
  intros Hc Hx. destruct (Ascii.eqb_spec c x) as [-> | ]; [congruence | easy].
Qed.

Lemma digit_not_x (c : ascii) : JS.is_digit c = true -> JS.is_x c = false.
Proof.
  intros H. unfold JS.is_x.
  rewrite (digit_not_char c "x"), (digit_not_char c "X"); auto.
Qed.

Lemma parse_dec_app (s t : string) :
  all_chars JS.is_digit s = true ->
  forall acc, JS.parse_dec acc (s ++ t) = JS.parse_dec (JS.parse_dec acc s) t.
Proof.
  induction s as [| c r IH]; simpl; intros H acc; [reflexivity |].
  apply andb_true_iff in H. destruct H as [Hc Hr].
  rewrite Hc. now apply IH.
Qed.

Lemma all_chars_app (p : ascii -> bool) (s t : string) :
  all_chars p (s ++ t) = all_chars p s && all_chars p t.
Proof.
  induction s as [| c r IH]; simpl; [reflexivity |].
  now rewrite IH, andb_assoc.
Qed.

Lemma digits_all_digit (f : nat) :
  forall n, 0 <= n -> all_chars JS.is_digit (JS.digits (S f) n) = true.
Proof.
  induction f as [| f IH]; intros n Hn.
  - simpl. destruct (n <? 10) eqn:E.
    + apply Z.ltb_lt in E. simpl. now rewrite digit_char_is_digit by lia.
    + simpl. rewrite digit_char_is_digit; [reflexivity |].
      apply Z.mod_pos_bound; lia.
  - change (JS.digits (S (S f)) n)
      with (if n <? 10 then String (JS.digit_char n) EmptyString
            else JS.digits (S f) (n / 10)
                 ++ String (JS.digit_char (n mod 10)) EmptyString).
    destruct (n <? 10) eqn:E.
    + apply Z.ltb_lt in E. simpl. now rewrite digit_char_is_digit by lia.
    + rewrite all_chars_app, IH by (apply Z.div_pos; lia).
      simpl. rewrite digit_char_is_digit; [reflexivity |].
      apply Z.mod_pos_bound; lia.
Qed.

Lemma digits_value (f : nat) :
  forall n, 0 <= n < 10 ^ Z.of_nat (S f) ->
            JS.parse_dec 0 (JS.digits (S f) n) = n.
Proof.
  induction f as [| f IH]; intros n Hn.
  - change (10 ^ Z.of_nat 1) with 10 in Hn.
    simpl. destruct (n <? 10) eqn:E; [| apply Z.ltb_ge in E; lia].
    simpl. rewrite digit_char_is_digit, digit_val_char by lia. lia.
  - change (JS.digits (S (S f)) n)
      with (if n <? 10 then String (JS.digit_char n) EmptyString
            else JS.digits (S f) (n / 10)
                 ++ String (JS.digit_char (n mod 10)) EmptyString).
    destruct (n <? 10) eqn:E.
    + apply Z.ltb_lt in E. simpl.
      rewrite digit_char_is_digit, digit_val_char by lia. lia.
    + apply Z.ltb_ge in E.
      assert (Hq : 0 <= n / 10 < 10 ^ Z.of_nat (S f)).
      { split; [apply Z.div_pos; lia |].
        apply Z.div_lt_upper_bound; [lia |].
        replace (Z.of_nat (S (S f))) with (Z.succ (Z.of_nat (S f))) in Hn by lia.
        rewrite Z.pow_succ_r in Hn by lia. lia. }
      rewrite parse_dec_app by (apply digits_all_digit; lia).
      rewrite IH by exact Hq.
      pose proof (Z.mod_pos_bound n 10 ltac:(lia)) as Hm.
      simpl. rewrite digit_char_is_digit, digit_val_char by lia.
      pose proof (Z.div_mod n 10 ltac:(lia)). lia.
Qed.

Lemma digits_fuel_enough (n : Z) :
  0 <= n -> n < 10 ^ Z.of_nat (JS.digits_fuel n).
Proof.
  intros Hn. unfold JS.digits_fuel.
  rewrite Nat2Z.inj_succ, Z2Nat.id by apply Z.log2_nonneg.
  destruct (Z.eq_dec n 0) as [-> | Hne]; [reflexivity |].
  pose proof (Z.log2_spec n ltac:(lia)) as [_ Hlt].
  apply Z.lt_le_trans with (1 := Hlt).
  apply Z.pow_le_mono_l. pose proof (Z.log2_nonneg n). lia.
Qed.

Lemma parse_body_digits (s : string) :
  all_chars JS.is_digit s = true -> nonempty s = true ->
  JS.parse_body s = JS.Num (JS.parse_dec 0 s).
Proof.
  destruct s as [| c r]; [discriminate |]. intros H _.
  simpl in H. apply andb_true_iff in H. destruct H as [Hc Hr].
  unfold JS.parse_body, JS.parse_decimal.
  destruct r as [| x r'].
  - now rewrite Hc.
  - simpl in Hr. apply andb_true_iff in Hr. destruct Hr as [Hx _].
    rewrite (digit_not_x x Hx), andb_false_r. now rewrite Hc.
Qed.

Lemma parseInt_digits (s : string) :
  all_chars JS.is_digit s = true -> nonempty s = true ->
  JS.parseInt s = JS.Num (JS.parse_dec 0 s).
Proof.
  intros H Hne. pose proof (parse_body_digits s H Hne) as Hb.
  destruct s as [| c r]; [discriminate |].
  simpl in H. apply andb_true_iff in H. destruct H as [Hc Hr].
  unfold JS.parseInt. simpl JS.skip_space. rewrite (digit_not_space c Hc).
  rewrite (digit_not_char c "-"), (digit_not_char c "+") by auto.
  exact Hb.
Qed.

Lemma parseInt_minus_digits (s : string) :
  all_chars JS.is_digit s = true -> nonempty s = true ->
  JS.parseInt (String "-" s) = JS.Num (- JS.parse_dec 0 s).
Proof.
  intros H Hne. unfold JS.parseInt. simpl.
  now rewrite (parse_body_digits s H Hne).
Qed.

Lemma digits_nonempty (f : nat) (n : Z) : nonempty (JS.digits (S f) n) = true.
Proof.
  simpl. destruct (n <? 10); [reflexivity |].
  destruct (JS.digits f (n / 10)); reflexivity.
Qed.

(** [padStart(2, "0")] on a non-empty string prepends at most one ["0"]. *)
Lemma padStart2_cases (s : string) :
  nonempty s = true ->
  JS.padStart 2 "0" s = s \/ JS.padStart 2 "0" s = String "0" s.
Proof.
  destruct s as [| a [| b r]]; [discriminate | right | left]; reflexivity.
Qed.

Lemma padStart2_long (s : string) :
  (2 <= String.length s)%nat -> JS.padStart 2 "0" s = s.
Proof.
  intros H. unfold JS.padStart.
  replace (2 - String.length s)%nat with O by lia. reflexivity.
Qed.

(** Reading back one padded field gives the number that was printed. *)
Lemma parse_pad2 (v : Z) :
  JS.or_else (JS.parseInt (pad2 (JS.Num v))) (JS.Num 0) = JS.Num v.
Proof.
  assert (Hor : forall z, JS.or_else (JS.Num z) (JS.Num 0) = JS.Num z).
  { intros z. unfold JS.or_else, JS.truthy.
    destruct (Z.eqb_spec z 0) as [-> | ]; reflexivity. }
  unfold pad2, JS.String_. destruct (v <? 0) eqn:E.
  - apply Z.ltb_lt in E.
    rewrite padStart2_long.
    + rewrite parseInt_minus_digits, Hor.
      * unfold JS.digits_fuel.
        rewrite digits_value; [f_equal; lia |].
        split; [lia |]. apply (digits_fuel_enough (- v)). lia.
      * apply digits_all_digit. lia.
      * apply digits_nonempty.
    + pose proof (digits_nonempty (Z.to_nat (Z.log2 (- v))) (- v)) as Hne.
      unfold JS.digits_fuel.
      destruct (JS.digits (S (Z.to_nat (Z.log2 (- v)))) (- v));
        [discriminate | simpl; lia].
  - apply Z.ltb_ge in E. unfold JS.digits_fuel.
    set (d := JS.digits (S (Z.to_nat (Z.log2 v))) v).
    assert (Hall : all_chars JS.is_digit d = true)
      by (apply digits_all_digit; exact E).
    assert (Hne : nonempty d = true) by apply digits_nonempty.
    assert (Hval : JS.parse_dec 0 d = v).
    { apply digits_value. split; [exact E |]. now apply digits_fuel_enough. }
    destruct (padStart2_cases d Hne) as [-> | ->].
    + now rewrite parseInt_digits, Hor, Hval.
    + rewrite parseInt_digits, Hor; [| simpl; exact Hall | reflexivity].
      simpl. exact (f_equal JS.Num Hval).
Qed.

(** ** Splitting at colons *)

Lemma split_no_colon (a : string) :
  JS.includes a ":" = false -> JS.split ":" a = [a].
Proof.
  induction a as [| c r IH]; simpl; intros H; [reflexivity |].
  apply orb_false_iff in H. destruct H as [Hc Hr].
  now rewrite Hc, (IH Hr).
Qed.

Lemma split_at_colon (a r : string) :
  JS.includes a ":" = false ->
  JS.split ":" (a ++ String ":" r) = a :: JS.split ":" r.
Proof.
  induction a as [| c a' IH]; simpl; intros H; [reflexivity |].
  apply orb_false_iff in H. destruct H as [Hc Hr].
  now rewrite Hc, (IH Hr).
Qed.

Lemma includes_app (a b : string) (c : ascii) :
  JS.includes (a ++ b) c = JS.includes a c || JS.includes b c.
Proof.
  induction a as [| x r IH]; simpl; [reflexivity |].
  now rewrite IH, orb_assoc.
Qed.

Lemma digits_no_colon (s : string) :
  all_chars JS.is_digit s = true -> JS.includes s ":" = false.
Proof.
  induction s as [| c r IH]; simpl; intros H; [reflexivity |].
  apply andb_true_iff in H. destruct H as [Hc Hr].
  now rewrite (digit_not_char c ":"), IH.
Qed.

Lemma pad2_no_colon (v : JS.number) : JS.includes (pad2 v) ":" = false.
Proof.
  destruct v as [z |]; [| reflexivity].
  unfold pad2, JS.padStart. rewrite includes_app.
  apply orb_false_iff. split.
  - destruct (2 - String.length (JS.String_ (JS.Num z)))%nat as [| [| k]];
      try reflexivity.
    simpl. induction k; simpl; auto.
  - unfold JS.String_, JS.digits_fuel. destruct (z <? 0) eqn:E.
    + apply Z.ltb_lt in E. simpl.
      apply digits_no_colon, digits_all_digit. lia.
    + apply Z.ltb_ge in E. apply digits_no_colon, digits_all_digit. lia.
Qed.

(** A text of three colon-free segments decodes segment by segment. *)
Lemma hmsToSeconds_three_segments (a b c : string) :
  JS.includes a ":" = false -> JS.includes b ":" = false ->
  JS.includes c ":" = false ->
  hmsToSeconds (a ++ ":" ++ b ++ ":" ++ c)
  = JS.add (JS.add (JS.mul (segment_value a) (JS.Num 3600))
                   (JS.mul (segment_value b) (JS.Num 60)))
           (segment_value c).
Proof.
  intros Ha Hb Hc. unfold hmsToSeconds.
  rewrite includes_app. simpl JS.includes at 2. rewrite orb_true_r. simpl negb.
  cbv iota.
  change (a ++ ":" ++ b ++ ":" ++ c)
    with (a ++ String ":" (b ++ String ":" c)).
  rewrite (split_at_colon a _ Ha), (split_at_colon b _ Hb), (split_no_colon c Hc).
  reflexivity.
Qed.

Lemma secondsToHms_Num (n : Z) :
  secondsToHms (JS.Num n)
  = pad2 (JS.Num (n / 3600)) ++ ":" ++ pad2 (JS.Num (Z.rem n 3600 / 60))
    ++ ":" ++ pad2 (JS.Num (Z.rem n 60)).
Proof. reflexivity. Qed.

(** Decoding an encoded count: exact for a non-negative count, and never
    above the count otherwise. *)
Lemma hmsToSeconds_secondsToHms (n : Z) :
  hmsToSeconds (secondsToHms (JS.Num n))
  = JS.Num (n / 3600 * 3600 + Z.rem n 3600 / 60 * 60 + Z.rem n 60).
Proof.
  rewrite secondsToHms_Num.
  rewrite hmsToSeconds_three_segments by apply pad2_no_colon.
  unfold segment_value. now rewrite !parse_pad2.
Qed.

Lemma hms_sum_nonneg (n : Z) :
  0 <= n -> n / 3600 * 3600 + Z.rem n 3600 / 60 * 60 + Z.rem n 60 = n.
Proof.
  intros Hn. rewrite !Z.rem_mod_nonneg by lia.
  Z.div_mod_to_equations. lia.
Qed.

Lemma hms_sum_le (n : Z) :
  n / 3600 * 3600 + Z.rem n 3600 / 60 * 60 + Z.rem n 60 <= n.
Proof.
  destruct (Z.le_gt_cases 0 n) as [Hn | Hn].
  - rewrite hms_sum_nonneg by exact Hn. lia.
  - pose proof (Z.div_mod n 3600 ltac:(lia)) as H1.
    pose proof (Z.mod_pos_bound n 3600 ltac:(lia)) as B1.
    pose proof (Z.rem_nonpos n 3600 ltac:(lia) ltac:(lia)) as R1.
    pose proof (Z.rem_nonpos n 60 ltac:(lia) ltac:(lia)) as R2.
    pose proof (Z.div_mod (Z.rem n 3600) 60 ltac:(lia)) as H2.
    pose proof (Z.mod_pos_bound (Z.rem n 3600) 60 ltac:(lia)) as B2.
    lia.
Qed.

Lemma hmsToSeconds_secondsToHms_nonneg (n : Z) :
  0 <= n -> hmsToSeconds (secondsToHms (JS.Num n)) = JS.Num n.
Proof.
  intros Hn. now rewrite hmsToSeconds_secondsToHms, hms_sum_nonneg.
Qed.

(** ** Time codec *)

Example secondsToHms_3661 : secondsToHms (JS.Num 3661) = "01:01:01".
Proof. reflexivity. Qed.

Example hmsToSeconds_full : hmsToSeconds "01:01:01" = JS.Num 3661.
Proof. reflexivity. Qed.

Example hmsToSeconds_lenient :
  hmsToSeconds " 7:-2:3x" = JS.Num 25083 /\ hmsToSeconds "::" = JS.Num 0
  /\ hmsToSeconds "1:2:3:4" = JS.Num 3723 /\ hmsToSeconds "90" = JS.Num 0.
Proof. repeat split. Qed.







(** C4: on the two-segment text ["12:34"] the code returns [NaN], where the
    specification's decoding treats the missing seconds as [0] and gives
    [12 * 3600 + 34 * 60 = 45240]. *)
Theorem hmsToSeconds_missing_seconds :
  hmsToSeconds "12:34" = JS.NaN /\ textToSeconds_spec "12:34" = 45240.
Proof. split; reflexivity. Qed.

(** ** Time-field editor *)

Example handleTimeInput_first : handleTimeInput "00:00:00" "5" 0 = "05:00:00".
Proof. reflexivity. Qed.

Example handleTimeInput_second : handleTimeInput "05:00:00" "3" 1 = "53:00:00".
Proof. reflexivity. Qed.

Lemma is_digit_inv (c : ascii) :
  JS.is_digit c = true -> In (String c EmptyString) digit_keys.
Proof.
  intros H.
  assert (Hc : c = JS.digit_char (JS.digit_val c)).
  { apply code_inj. unfold JS.digit_char, JS.digit_val.
    pose proof (code_range c). char_arith.
    unfold JS.code at 2. rewrite nat_ascii_embedding, Z2Nat.id; lia. }
  assert (Hd : 0 <= JS.digit_val c < 10)
    by (unfold JS.digit_val; char_arith; lia).
  rewrite Hc. generalize dependent (JS.digit_val c). intros d _ Hd.
  digit_cases d; simpl; tauto.
Qed.

Lemma is_digit_key_inv (key : string) :
  is_digit_key key = true -> In key digit_keys.
Proof.
  destruct key as [| c [| x r]]; try discriminate.
  apply is_digit_inv.
Qed.

(** C10: a key that is not one of the ten single decimal digit characters
    leaves the buffer unchanged, whatever the buffer and the caret
    position. *)
Theorem handleTimeInput_other_key (currentValue key : string) (cursorPos : Z) :
  ~ In key digit_keys ->
  handleTimeInput currentValue key cursorPos = currentValue.
Proof.
  intros Hkey. unfold handleTimeInput.
  destruct (is_digit_key key) eqn:E; [| reflexivity].
  exfalso. now apply Hkey, is_digit_key_inv.
Qed.

Lemma handleTimeInput_other_key_witness :
  ~ In "Backspace" digit_keys
  /\ handleTimeInput "12:34:56" "Backspace" 4 = "12:34:56".
Proof.
  assert (H : ~ In "Backspace" digit_keys).
  { simpl. intros Hin. repeat (destruct Hin as [Hin | Hin]; [discriminate |]).
    exact Hin. }
  split; [exact H | apply (handleTimeInput_other_key "12:34:56" "Backspace" 4 H)].
Defined.

Lemma parseTimeString_buffer (h1 h2 m1 m2 s1 s2 : ascii) :
  Ascii.eqb h1 ":" = false -> Ascii.eqb h2 ":" = false ->
  Ascii.eqb m1 ":" = false -> Ascii.eqb m2 ":" = false ->
  Ascii.eqb s1 ":" = false -> Ascii.eqb s2 ":" = false ->
  parseTimeString (time_buffer h1 h2 m1 m2 s1 s2)
  = (String h1 (String h2 ""), String m1 (String m2 ""),
     String s1 (String s2 "")).
Proof.
  intros H1 H2 H3 H4 H5 H6. unfold parseTimeString, time_buffer.
  simpl JS.split. rewrite H1, H2, H3, H4, H5, H6. reflexivity.
Qed.

(** C5, as the code has it: on a buffer [HH:MM:SS] a digit key targets the
    hours when the caret is at most 2, the minutes when it is 3, 4 or 5,
    and the seconds from 6 on; the targeted field becomes its former low
    digit followed by the key, and the two other fields are unchanged. *)
Theorem handleTimeInput_digit (h1 h2 m1 m2 s1 s2 k : ascii) (p : Z) :
  Ascii.eqb h1 ":" = false -> Ascii.eqb h2 ":" = false ->
  Ascii.eqb m1 ":" = false -> Ascii.eqb m2 ":" = false ->
  Ascii.eqb s1 ":" = false -> Ascii.eqb s2 ":" = false ->
  JS.is_digit k = true ->
  handleTimeInput (time_buffer h1 h2 m1 m2 s1 s2) (String k "") p
  = if p <=? 2 then time_buffer h2 k m1 m2 s1 s2
    else if p <=? 5 then time_buffer h1 h2 m2 k s1 s2
    else time_buffer h1 h2 m1 m2 s2 k.
Proof.
  intros H1 H2 H3 H4 H5 H6 Hk. unfold handleTimeInput, enter_digit.
  simpl is_digit_key. rewrite Hk. simpl negb. cbv iota.
  rewrite parseTimeString_buffer by assumption.
  unfold field_of_cursor.
  destruct (p <=? 2); [reflexivity |]. destruct (p <=? 5); reflexivity.
Qed.

Lemma handleTimeInput_digit_witness :
  handleTimeInput (time_buffer "1" "2" "3" "4" "5" "6") "7" 5
  = time_buffer "1" "2" "4" "7" "5" "6".
Proof.
  apply (handleTimeInput_digit "1" "2" "3" "4" "5" "6" "7" 5); reflexivity.
Defined.

(** C5 as stated fails with the caret at 2: the code enters the digit in
    the hours, the specification's ranges put it in the minutes. *)
Lemma handleTimeInput_caret_2 :
  handleTimeInput "12:34:56" "7" 2 = "27:34:56"
  /\ digit_key_spec "12:34:56" "7" 2 = "12:47:56"
  /\ handleTimeInput "12:34:56" "7" 2 <> digit_key_spec "12:34:56" "7" 2.
Proof. repeat split. discriminate. Qed.

(** ** Quality selector *)




(** The scenario on the controller state: two options over the range
    [00:00:00]..[00:01:40]. *)
Example quality_labels_scenario :
  quality_labels
    (set_endTime "00:01:40"
       (set_availableQualities
          [mkQuality "1080p" 1920 1080 8000000 "1080p";
           mkQuality "480p" 854 480 3000000 "480p"] initial))
  = [label_MB 100; label_MB 38].
Proof. reflexivity. Qed.

Example size_label_gigabytes :
  size_label (mkQuality "1080p" 1920 1080 8000000 "1080p") (JS.Num 3661)
  = label_GB 3661.
Proof. reflexivity. Qed.

(** ** Renders that change nothing *)

Lemma RefKind_eqb_refl (k : RefKind) : RefKind_eqb k k = true.
Proof. destruct k; reflexivity. Qed.

Lemma same_deps_refl (a : ParsedInput) : same_deps a a = true.
Proof.
  destruct a as [p |]; simpl; [| reflexivity].
  now rewrite RefKind_eqb_refl, String.eqb_refl.
Qed.

Lemma option_Z_eqb_refl (a : option Z) : option_Z_eqb a a = true.
Proof. destruct a; simpl; [apply Z.eqb_refl | reflexivity]. Qed.

Lemma same_end_deps_refl (s : App) : same_end_deps s s = true.
Proof.
  unfold same_end_deps.
  now rewrite String.eqb_refl, option_Z_eqb_refl, Bool.eqb_reflx.
Qed.

Lemma same_start_deps_refl (s : App) : same_start_deps s s = true.
Proof.
  unfold same_start_deps.
  now rewrite String.eqb_refl, option_Z_eqb_refl, Bool.eqb_reflx.
Qed.

Lemma effects_pass_same (s : App) : effects_pass s s = s.
Proof.
  unfold effects_pass.
  now rewrite same_deps_refl, same_end_deps_refl, same_start_deps_refl.
Qed.

Lemma settle_same (n : nat) (s : App) : settle n s s = s.
Proof.
  induction n as [| n IH]; simpl; [reflexivity |].
  now rewrite effects_pass_same.
Qed.

Lemma commit_same (s : App) : commit s s = s.
Proof. apply settle_same. Qed.

(** ** Download session manager *)

(** C2: while the busy flag is set (a download or an install is in flight)
    a click on the download trigger leaves the whole controller state as it
    was, and no download command is added to those already invoked. *)
Theorem click_download_while_busy (s : App) :
  isBusy s = true ->
  step s ClickDownload = s
  /\ downloads (step s ClickDownload) = downloads s
  /\ calls (step s ClickDownload) = calls s.
Proof.
  intros Hbusy.
  assert (H : step s ClickDownload = s).
  { unfold step, handle, click_download, download_disabled.
    rewrite Hbusy. simpl. apply commit_same. }
  rewrite H. auto.
Qed.

Lemma click_download_while_busy_witness :
  step downloading_state ClickDownload = downloading_state
  /\ downloads (step downloading_state ClickDownload)
     = downloads downloading_state
  /\ calls (step downloading_state ClickDownload) = calls downloading_state.
Proof.
  apply (click_download_while_busy downloading_state). reflexivity.
Defined.

(** The guard is the button's: [handleDownload] itself does not read the
    busy flag, and would dispatch again if it were called while busy. *)
Remark handleDownload_reads_no_busy_flag :
  isBusy downloading_state = true
  /\ calls (handleDownload downloading_state)
     = [download_clip_cmd "clip1" "/tmp"].
Proof. split; reflexivity. Qed.

(** When idle with a reference and a destination, a click dispatches exactly
    one backend command, chosen by the kind of the reference. *)
Example click_download_clip :
  calls (step (set_outputDir "/tmp" (set_videoInput "clip1" initial))
              ClickDownload)
  = [download_clip_cmd "clip1" "/tmp"].
Proof. reflexivity. Qed.

Example click_download_video :
  calls (step (set_ffmpegReady (Some true)
                 (set_outputDir "/tmp" (set_videoInput "123" initial)))
              ClickDownload)
  = [download_vod "123" "00:00:00" "" "/tmp" None].
Proof. reflexivity. Qed.

(** ** What a pass of effects touches *)

Ltac effects_cases :=
  unfold effects_pass, resolver_effect;
  repeat match goal with
         | |- context [if ?b then _ else _] => destruct b
         | |- context [match ?x with _ => _ end] => destruct x
         end;
  try reflexivity.

Lemma effects_pass_videoInput (prev cur : App) :
  videoInput (effects_pass prev cur) = videoInput cur.
Proof. effects_cases. Qed.

Lemma effects_pass_calls (prev cur : App) :
  calls (effects_pass prev cur) = calls cur.
Proof. effects_cases. Qed.

Lemma effects_pass_inflight (prev cur : App) :
  inflight (effects_pass prev cur) = inflight cur.
Proof. effects_cases. Qed.

Lemma effects_pass_clock (prev cur : App) :
  clock (effects_pass prev cur) = clock cur.
Proof. effects_cases. Qed.

Lemma effects_pass_isBusy (prev cur : App) :
  isBusy (effects_pass prev cur) = isBusy cur.
Proof. effects_cases. Qed.

Lemma effects_pass_availableQualities (prev cur : App) :
  availableQualities (effects_pass prev cur) = availableQualities cur.
Proof. effects_cases. Qed.

Lemma effects_pass_selectedQuality (prev cur : App) :
  selectedQuality (effects_pass prev cur) = selectedQuality cur.
Proof. effects_cases. Qed.

Lemma effects_pass_fetchingInfo (prev cur : App) :
  fetchingInfo (effects_pass prev cur) = fetchingInfo cur.
Proof. effects_cases. Qed.

Lemma effects_pass_parsed (prev cur : App) :
  parsed (effects_pass prev cur) = parsed cur.
Proof. unfold parsed. now rewrite effects_pass_videoInput. Qed.

Lemma effects_pass_isClip (prev cur : App) :
  isClip (effects_pass prev cur) = isClip cur.
Proof. unfold isClip. now rewrite effects_pass_parsed. Qed.

Lemma effects_pass_timer (prev cur : App) :
  timer (effects_pass prev cur)
  = if same_deps (parsed prev) (parsed cur) then timer cur
    else match parsed cur with
         | Some p => Some ((clock cur + QUIET_PERIOD)%nat, p)
         | None => None
         end.
Proof.
  unfold effects_pass, resolver_effect.
  destruct (same_deps (parsed prev) (parsed cur));
    destruct (parsed cur); destruct (same_end_deps prev cur);
    destruct (same_start_deps prev cur); destruct (end_effect cur);
    destruct (start_effect cur); reflexivity.
Qed.

Lemma effects_pass_preview (prev cur : App) :
  preview (effects_pass prev cur)
  = if same_deps (parsed prev) (parsed cur) then preview cur
    else match parsed cur with
         | Some _ => preview cur
         | None => None
         end.
Proof.
  unfold effects_pass, resolver_effect.
  destruct (same_deps (parsed prev) (parsed cur));
    destruct (parsed cur); destruct (same_end_deps prev cur);
    destruct (same_start_deps prev cur); destruct (end_effect cur);
    destruct (start_effect cur); reflexivity.
Qed.

Lemma effects_pass_endTime (prev cur : App) :
  endTime (effects_pass prev cur)
  = if same_end_deps prev cur then endTime cur
    else match end_effect cur with
         | Some v => v
         | None => endTime cur
         end.
Proof.
  unfold effects_pass, resolver_effect.
  destruct (same_deps (parsed prev) (parsed cur));
    destruct (parsed cur); destruct (same_end_deps prev cur);
    destruct (same_start_deps prev cur); destruct (end_effect cur);
    destruct (start_effect cur); reflexivity.
Qed.

Lemma effects_pass_startTime (prev cur : App) :
  startTime (effects_pass prev cur)
  = if same_start_deps prev cur then startTime cur
    else match start_effect cur with
         | Some v => v
         | None => startTime cur
         end.
Proof.
  unfold effects_pass, resolver_effect.
  destruct (same_deps (parsed prev) (parsed cur));
    destruct (parsed cur); destruct (same_end_deps prev cur);
    destruct (same_start_deps prev cur); destruct (end_effect cur);
    destruct (start_effect cur); reflexivity.
Qed.

Lemma effects_pass_preview_cases (prev cur : App) :
  preview (effects_pass prev cur) = preview cur
  \/ preview (effects_pass prev cur) = None.
Proof.
  rewrite effects_pass_preview.
  destruct (same_deps _ _); [now left |]. destruct (parsed cur); auto.
Qed.

(** ** The corrective reactions reach a rest state *)

Lemma option_Z_eqb_eq (a b : option Z) : option_Z_eqb a b = true -> a = b.
Proof.
  destruct a, b; simpl; intros H; try discriminate; [| reflexivity].
  apply Z.eqb_eq in H. now subst.
Qed.

Lemma same_end_deps_inv (a b : App) :
  same_end_deps a b = true ->
  endTime a = endTime b /\ preview_duration a = preview_duration b
  /\ isClip a = isClip b.
Proof.
  unfold same_end_deps. intros H.
  apply andb_true_iff in H. destruct H as [H H3].
  apply andb_true_iff in H. destruct H as [H1 H2].
  apply String.eqb_eq in H1. apply option_Z_eqb_eq in H2.
  apply Bool.eqb_prop in H3. auto.
Qed.

Lemma same_start_deps_inv (a b : App) :
  same_start_deps a b = true ->
  startTime a = startTime b /\ preview_duration a = preview_duration b
  /\ isClip a = isClip b.
Proof.
  unfold same_start_deps. intros H.
  apply andb_true_iff in H. destruct H as [H H3].
  apply andb_true_iff in H. destruct H as [H1 H2].
  apply String.eqb_eq in H1. apply option_Z_eqb_eq in H2.
  apply Bool.eqb_prop in H3. auto.
Qed.

(** Each range effect is a function of its dependency list. *)
Lemma end_effect_ext (a b : App) :
  endTime a = endTime b -> preview_duration a = preview_duration b ->
  isClip a = isClip b -> end_effect a = end_effect b.
Proof.
  intros H1 H2 H3. unfold end_effect, truthy_duration.
  now rewrite H1, H2, H3.
Qed.

Lemma start_effect_ext (a b : App) :
  startTime a = startTime b -> preview_duration a = preview_duration b ->
  isClip a = isClip b -> start_effect a = start_effect b.
Proof.
  intros H1 H2 H3. unfold start_effect, truthy_duration.
  now rewrite H1, H2, H3.
Qed.

Lemma end_effect_no_preview (s : App) :
  preview s = None -> end_effect s = None.
Proof.
  intros H. unfold end_effect, truthy_duration, preview_duration.
  now rewrite H.
Qed.

Lemma start_effect_no_preview (s : App) :
  preview s = None -> start_effect s = None.
Proof.
  intros H. unfold start_effect, truthy_duration, preview_duration.
  now rewrite H.
Qed.

(** The value an effect sets is determined by the duration alone. *)
Lemma end_effect_value (s : App) (v : string) :
  end_effect s = Some v ->
  exists d, truthy_duration s = Some d /\ v = secondsToHms (JS.Num d).
Proof.
  unfold end_effect. destruct (truthy_duration s) as [d |]; [| discriminate].
  destruct (negb (nonempty (endTime s)) || isClip s); [discriminate |].
  destruct (JS.gt _ _); [| discriminate].
  intros H. injection H as <-. now exists d.
Qed.

Lemma start_effect_value (s : App) (v : string) :
  start_effect s = Some v ->
  exists d, truthy_duration s = Some d
            /\ v = secondsToHms (JS.Num (Z.max 0 (d - 60))).
Proof.
  unfold start_effect. destruct (truthy_duration s) as [d |]; [| discriminate].
  destruct (negb (nonempty (startTime s)) || isClip s); [discriminate |].
  destruct (JS.ge _ _); [| discriminate].
  intros H. injection H as <-. now exists d.
Qed.

Lemma preview_duration_of_preview (a b : App) :
  preview a = preview b -> preview_duration a = preview_duration b.
Proof. unfold preview_duration. now intros ->. Qed.

Lemma truthy_duration_of_preview (a b : App) :
  preview a = preview b -> truthy_duration a = truthy_duration b.
Proof.
  intros H. unfold truthy_duration.
  now rewrite (preview_duration_of_preview a b H).
Qed.

(** After a pass the end-time effect either is at rest or was not
    disturbed by the pass. *)
Lemma effects_pass_end (prev cur : App) (v : string) :
  end_effect (effects_pass prev cur) = Some v ->
  v = endTime (effects_pass prev cur)
  \/ (same_end_deps prev cur = true
      /\ end_effect (effects_pass prev cur) = end_effect cur
      /\ endTime (effects_pass prev cur) = endTime cur
      /\ preview (effects_pass prev cur) = preview cur).
Proof.
  set (s2 := effects_pass prev cur). intros Hv.
  destruct (effects_pass_preview_cases prev cur) as [Hp | Hp]; fold s2 in Hp;
    [| now rewrite (end_effect_no_preview s2 Hp) in Hv].
  pose proof (effects_pass_isClip prev cur) as Hc. fold s2 in Hc.
  pose proof (effects_pass_endTime prev cur) as He. fold s2 in He.
  destruct (same_end_deps prev cur) eqn:Ed.
  - right. repeat split; auto.
    apply end_effect_ext; auto using preview_duration_of_preview.
  - destruct (end_effect cur) as [v0 |] eqn:E0.
    + left. rewrite He.
      destruct (end_effect_value cur v0 E0) as (d & Hd & ->).
      destruct (end_effect_value s2 v Hv) as (d' & Hd' & ->).
      rewrite (truthy_duration_of_preview s2 cur Hp), Hd in Hd'.
      now injection Hd' as <-.
    + rewrite (end_effect_ext s2 cur He (preview_duration_of_preview _ _ Hp) Hc)
        in Hv.
      congruence.
Qed.

Lemma effects_pass_start (prev cur : App) (v : string) :
  start_effect (effects_pass prev cur) = Some v ->
  v = startTime (effects_pass prev cur)
  \/ (same_start_deps prev cur = true
      /\ start_effect (effects_pass prev cur) = start_effect cur
      /\ startTime (effects_pass prev cur) = startTime cur
      /\ preview (effects_pass prev cur) = preview cur).
Proof.
  set (s2 := effects_pass prev cur). intros Hv.
  destruct (effects_pass_preview_cases prev cur) as [Hp | Hp]; fold s2 in Hp;
    [| now rewrite (start_effect_no_preview s2 Hp) in Hv].
  pose proof (effects_pass_isClip prev cur) as Hc. fold s2 in Hc.
  pose proof (effects_pass_startTime prev cur) as He. fold s2 in He.
  destruct (same_start_deps prev cur) eqn:Ed.
  - right. repeat split; auto.
    apply start_effect_ext; auto using preview_duration_of_preview.
  - destruct (start_effect cur) as [v0 |] eqn:E0.
    + left. rewrite He.
      destruct (start_effect_value cur v0 E0) as (d & Hd & ->).
      destruct (start_effect_value s2 v Hv) as (d' & Hd' & ->).
      rewrite (truthy_duration_of_preview s2 cur Hp), Hd in Hd'.
      now injection Hd' as <-.
    + rewrite (start_effect_ext s2 cur He
                 (preview_duration_of_preview _ _ Hp) Hc) in Hv.
      congruence.
Qed.

Lemma set_endTime_same (s : App) : set_endTime (endTime s) s = s.
Proof. now destruct s. Qed.

Lemma set_startTime_same (s : App) : set_startTime (startTime s) s = s.
Proof. now destruct s. Qed.

Lemma same_end_deps_of_fields (a b : App) :
  endTime a = endTime b -> preview a = preview b -> isClip a = isClip b ->
  same_end_deps a b = true.
Proof.
  intros H1 H2 H3. unfold same_end_deps.
  rewrite H1, (preview_duration_of_preview a b H2), H3.
  now rewrite String.eqb_refl, option_Z_eqb_refl, Bool.eqb_reflx.
Qed.

Lemma same_start_deps_of_fields (a b : App) :
  startTime a = startTime b -> preview a = preview b -> isClip a = isClip b ->
  same_start_deps a b = true.
Proof.
  intros H1 H2 H3. unfold same_start_deps.
  rewrite H1, (preview_duration_of_preview a b H2), H3.
  now rewrite String.eqb_refl, option_Z_eqb_refl, Bool.eqb_reflx.
Qed.

(** One pass is enough: the render that follows it runs no effect that
    changes anything. *)
Lemma effects_pass_stable (prev cur : App) :
  effects_pass cur (effects_pass prev cur) = effects_pass prev cur.
Proof.
  set (s2 := effects_pass prev cur).
  pose proof (effects_pass_isClip prev cur) as Hc. fold s2 in Hc.
  unfold effects_pass at 1. fold s2.
  replace (parsed s2) with (parsed cur)
    by (symmetry; apply effects_pass_parsed).
  rewrite same_deps_refl.
  assert (He : (if same_end_deps cur s2 then s2
                else match end_effect s2 with
                     | Some v => set_endTime v s2
                     | None => s2
                     end) = s2).
  { destruct (same_end_deps cur s2) eqn:Ed; [reflexivity |].
    destruct (end_effect s2) as [v |] eqn:Ev; [| reflexivity].
    destruct (effects_pass_end prev cur v Ev) as [-> | (_ & _ & H1 & H2)].
    - apply set_endTime_same.
    - fold s2 in H1, H2.
      rewrite (same_end_deps_of_fields cur s2) in Ed by auto. discriminate. }
  rewrite He.
  destruct (same_start_deps cur s2) eqn:Ed; [reflexivity |].
  destruct (start_effect s2) as [v |] eqn:Ev; [| reflexivity].
  destruct (effects_pass_start prev cur v Ev) as [-> | (_ & _ & H1 & H2)].
  - apply set_startTime_same.
  - fold s2 in H1, H2.
    rewrite (same_start_deps_of_fields cur s2) in Ed by auto. discriminate.
Qed.

(** The fuel of [commit] is enough: any further render changes nothing. *)
Lemma settle_enough (n : nat) (prev cur : App) :
  settle (S n) prev cur = effects_pass prev cur.
Proof.
  revert prev cur. induction n as [| n IH]; intros prev cur; [reflexivity |].
  change (settle (S (S n)) prev cur)
    with (settle (S n) cur (effects_pass prev cur)).
  now rewrite IH, effects_pass_stable.
Qed.

Lemma commit_pass (prev cur : App) : commit prev cur = effects_pass prev cur.
Proof. apply (settle_enough 1). Qed.

(** A pass started from a state at rest ends in a state at rest. *)
Lemma effects_pass_at_rest (prev cur : App) :
  at_rest prev -> at_rest (effects_pass prev cur).
Proof.
  intros [Hend Hstart]. split; intros v Hv.
  - destruct (effects_pass_end prev cur v Hv) as [H | (Hd & He & Ht & _)];
      [exact H |].
    destruct (same_end_deps_inv prev cur Hd) as (H1 & H2 & H3).
    rewrite Ht, <- H1. apply Hend.
    rewrite (end_effect_ext prev cur H1 H2 H3). congruence.
  - destruct (effects_pass_start prev cur v Hv) as [H | (Hd & He & Ht & _)];
      [exact H |].
    destruct (same_start_deps_inv prev cur Hd) as (H1 & H2 & H3).
    rewrite Ht, <- H1. apply Hstart.
    rewrite (start_effect_ext prev cur H1 H2 H3). congruence.
Qed.

Lemma initial_at_rest : at_rest initial.
Proof. split; intros v H; discriminate. Qed.

Lemma step_at_rest (s : App) (e : Event) : at_rest s -> at_rest (step s e).
Proof.
  intros H. unfold step. rewrite commit_pass. now apply effects_pass_at_rest.
Qed.

Lemma run_at_rest (es : list Event) :
  forall s, at_rest s -> at_rest (run es s).
Proof.
  induction es as [| e es IH]; intros s H; [exact H |].
  simpl. apply IH. now apply step_at_rest.
Qed.

(** ** Range validator *)

Example no_error_to_end_of_media :
  let s := run [ChangeVideoInput "123"; Elapse 500;
                VideoInfoSettled (mkRef video "123") (Some vod_of_two_minutes);
                ChangeEndTime ""] initial in
  startTime s = "00:00:00" /\ endTime s = "" /\ endSec s 120 = JS.Num 120
  /\ timeRangeError s = None.
Proof. repeat split. Qed.

Example clamps_after_resolution :
  let s := run [ChangeVideoInput "123"; Elapse 500;
                VideoInfoSettled (mkRef video "123") (Some vod_of_two_minutes);
                ChangeStartTime "00:05:00"; ChangeEndTime "00:09:00"] initial in
  startTime s = "00:01:00" /\ endTime s = "00:02:00".
Proof. split; reflexivity. Qed.
















(** ** Metadata resolver: what a settled fetch stores *)

Lemma insert_quality_perm (x : VideoQuality) (l : list VideoQuality) :
  Permutation (x :: l) (insert_quality x l).
Proof.
  induction l as [| y r IH]; simpl; [apply Permutation_refl |].
  destruct (bandwidth y <=? bandwidth x); [apply Permutation_refl |].
  apply perm_trans with (y :: x :: r); [apply perm_swap |].
  now apply perm_skip.
Qed.

Lemma sortedQualities_perm (l : list VideoQuality) :
  Permutation l (sortedQualities l).
Proof.
  induction l as [| x r IH]; simpl; [apply perm_nil |].
  apply perm_trans with (x :: sortedQualities r); [now apply perm_skip |].
  apply insert_quality_perm.
Qed.

Lemma insert_quality_hd (x y : VideoQuality) (l : list VideoQuality) :
  HdRel by_bandwidth_desc y l -> by_bandwidth_desc y x ->
  HdRel by_bandwidth_desc y (insert_quality x l).
Proof.
  intros Hl Hx. destruct l as [| z r]; simpl; [now constructor |].
  destruct (bandwidth z <=? bandwidth x); constructor; [exact Hx |].
  now inversion Hl.
Qed.

Lemma insert_quality_sorted (x : VideoQuality) (l : list VideoQuality) :
  Sorted by_bandwidth_desc l -> Sorted by_bandwidth_desc (insert_quality x l).
Proof.
  induction 1 as [| y r Hs IH Hhd]; simpl.
  - repeat constructor.
  - destruct (Z.leb_spec (bandwidth y) (bandwidth x)) as [Hle | Hgt].
    + constructor; [now constructor | now constructor].
    + constructor; [exact IH |].
      apply insert_quality_hd; [exact Hhd |]. unfold by_bandwidth_desc. lia.
Qed.

Lemma sortedQualities_sorted (l : list VideoQuality) :
  Sorted by_bandwidth_desc (sortedQualities l).
Proof.
  induction l as [| x r IH]; simpl; [constructor |].
  now apply insert_quality_sorted.
Qed.

Example sortedQualities_stable :
  map quality_id
    (sortedQualities [mkQuality "a" 1 480 3000000 "";
                      mkQuality "b" 1 1080 8000000 "";
                      mkQuality "c" 1 720 3000000 ""])
  = ["b"; "a"; "c"].
Proof. reflexivity. Qed.

Ltac loaded_cases info :=
  unfold video_info_loaded;
  destruct (0 <? vod_duration info); destruct (qualities info);
  try reflexivity.

Lemma video_info_loaded_preview (info : VodInfo) (s : App) :
  preview (video_info_loaded info s) = Some (preview_of_vod info).
Proof. loaded_cases info. Qed.

Lemma video_info_loaded_videoInput (info : VodInfo) (s : App) :
  videoInput (video_info_loaded info s) = videoInput s.
Proof. loaded_cases info. Qed.

Lemma video_info_loaded_endTime (info : VodInfo) (s : App) :
  endTime (video_info_loaded info s)
  = if 0 <? vod_duration info
    then secondsToHms (JS.Num (vod_duration info)) else endTime s.
Proof. loaded_cases info. Qed.

Lemma video_info_loaded_availableQualities (info : VodInfo) (s : App) :
  availableQualities (video_info_loaded info s)
  = sortedQualities (qualities info).
Proof. loaded_cases info. Qed.

Lemma video_info_loaded_selectedQuality (info : VodInfo) (s : App) :
  selectedQuality (video_info_loaded info s)
  = match qualities info with
    | [] => selectedQuality s
    | _ :: _ => "auto"
    end.
Proof. loaded_cases info. Qed.

(** What the state holds once the answer to a video fetch has been handled
    and the render it causes has settled; nothing in it depends on the
    reference that is current at that time. *)
Lemma video_info_settled_stores (s : App) (p : MediaRef) (info : VodInfo) :
  awaiting p s = true -> type p = video ->
  let s' := step s (VideoInfoSettled p (Some info)) in
  parsed s' = parsed s
  /\ preview s' = Some (preview_of_vod info)
  /\ (0 < vod_duration info ->
      endTime s' = secondsToHms (JS.Num (vod_duration info)))
  /\ availableQualities s' = sortedQualities (qualities info)
  /\ selectedQuality s' = match qualities info with
                          | [] => selectedQuality s
                          | _ :: _ => "auto"
                          end.
Proof.
  intros Haw Hty. unfold step. rewrite commit_pass.
  set (cur := handle (VideoInfoSettled p (Some info)) s).
  assert (Hcur : cur = set_fetchingInfo false
                         (video_info_loaded info
                            (set_inflight (remove_first p (inflight s)) s))).
  { unfold cur, handle, video_info_settled.
    now rewrite Haw, Hty. }
  assert (Hin : videoInput cur = videoInput s).
  { rewrite Hcur. simpl. now rewrite video_info_loaded_videoInput. }
  assert (Hpar : parsed cur = parsed s) by (unfold parsed; now rewrite Hin).
  assert (Hprev : preview cur = Some (preview_of_vod info)).
  { rewrite Hcur. simpl. apply video_info_loaded_preview. }
  cbv zeta. repeat split.
  - now rewrite effects_pass_parsed.
  - rewrite effects_pass_preview, Hpar, same_deps_refl. exact Hprev.
  - intros Hpos. rewrite effects_pass_endTime.
    assert (Hend : endTime cur = secondsToHms (JS.Num (vod_duration info))).
    { rewrite Hcur. simpl. rewrite video_info_loaded_endTime.
      destruct (Z.ltb_spec 0 (vod_duration info)); [reflexivity | lia]. }
    destruct (same_end_deps s cur); [exact Hend |].
    destruct (end_effect cur) as [v |] eqn:Ev; [| exact Hend].
    destruct (end_effect_value cur v Ev) as (d & Hd & ->).
    unfold truthy_duration, preview_duration in Hd. rewrite Hprev in Hd.
    simpl in Hd. destruct (vod_duration info =? 0); [discriminate |].
    now injection Hd as <-.
  - rewrite effects_pass_availableQualities, Hcur. simpl.
    apply video_info_loaded_availableQualities.
  - rewrite effects_pass_selectedQuality, Hcur. simpl.
    now rewrite video_info_loaded_selectedQuality.
Qed.

(** C9, as the code has it: a successful fetch for a Video reference
    stores title, channel, thumbnail and duration; when the duration is
    positive the end-time text becomes its encoding; the stored quality
    set is the returned one sorted descending by bandwidth; the selection
    is reset to ["auto"] when the returned set is not empty, and is left as
    it was when the set is empty. *)
Theorem video_fetch_success (s : App) (p : MediaRef) (info : VodInfo) :
  awaiting p s = true -> type p = video ->
  preview (step s (VideoInfoSettled p (Some info)))
  = Some {| title := vod_title info; channel := vod_channel info;
            thumbnail := vod_thumbnail info;
            duration := Some (vod_duration info) |}
  /\ (0 < vod_duration info ->
      endTime (step s (VideoInfoSettled p (Some info)))
      = secondsToHms (JS.Num (vod_duration info)))
  /\ Permutation (qualities info)
       (availableQualities (step s (VideoInfoSettled p (Some info))))
  /\ Sorted by_bandwidth_desc
       (availableQualities (step s (VideoInfoSettled p (Some info))))
  /\ (qualities info <> [] ->
      selectedQuality (step s (VideoInfoSettled p (Some info))) = "auto")
  /\ (qualities info = [] ->
      selectedQuality (step s (VideoInfoSettled p (Some info)))
      = selectedQuality s).
Proof.
  intros Haw Hty.
  destruct (video_info_settled_stores s p info Haw Hty)
    as (_ & Hprev & Hend & Hq & Hsel).
  cbv zeta in *. rewrite Hq, Hsel. repeat split.
  - exact Hprev.
  - exact Hend.
  - apply sortedQualities_perm.
  - apply sortedQualities_sorted.
  - destruct (qualities info); [congruence | reflexivity].
  - now intros ->.
Qed.

Lemma video_fetch_success_witness :
  endTime (step (run [ChangeVideoInput "chzzk.naver.com/video/123456";
                      Elapse 500] initial)
             (VideoInfoSettled (mkRef video "123456")
                (Some vod_with_qualities)))
  = "01:01:01".
Proof.
  refine (proj1 (proj2 (video_fetch_success
                          (run [ChangeVideoInput "chzzk.naver.com/video/123456";
                                Elapse 500] initial)
                          (mkRef video "123456") vod_with_qualities
                          eq_refl eq_refl)) _).
  reflexivity.
Defined.

(** C9 as stated fails when the answer carries no quality: the selection
    made for the previous recording is kept. *)
Lemma selection_kept_without_qualities :
  awaiting (mkRef video "222") (run reselect_run initial) = true
  /\ selectedQuality
       (step (run reselect_run initial)
          (VideoInfoSettled (mkRef video "222") (Some vod_without_qualities)))
     = "1080p"
  /\ selectedQuality
       (step (run reselect_run initial)
          (VideoInfoSettled (mkRef video "222") (Some vod_without_qualities)))
     <> "auto".
Proof.
  split; [vm_compute; reflexivity |].
  split; [vm_compute; reflexivity |].
  intros H. vm_compute in H. discriminate.
Qed.

(** ** Metadata resolver: a result that arrives late *)

(** C1 as stated fails: the answer for 111 arrives while 222 is the current
    reference, and the preview, the end-time text and the quality set take
    the values of 111. *)
Lemma late_result_overwrites :
  parsed (run superseded_run initial) = Some (mkRef video "222")
  /\ awaiting (mkRef video "111") (run superseded_run initial) = true
  /\ preview (step (run superseded_run initial)
                (VideoInfoSettled (mkRef video "111")
                   (Some vod_with_qualities)))
     = Some (mkPreview "first" "channel" "thumbnail" (Some 3661))
  /\ endTime (step (run superseded_run initial)
                (VideoInfoSettled (mkRef video "111")
                   (Some vod_with_qualities)))
     = "01:01:01"
  /\ ~ late_result_discarded.
Proof.
  split; [vm_compute; reflexivity |].
  split; [vm_compute; reflexivity |].
  split; [vm_compute; reflexivity |].
  split; [vm_compute; reflexivity |].
  intros H.
  destruct (H superseded_run (mkRef video "111") vod_with_qualities)
    as (Hprev & _); [vm_compute; reflexivity | vm_compute; reflexivity |].
  vm_compute in Hprev. discriminate.
Qed.

Lemma clip_info_settled_stores (s : App) (p : MediaRef) (info : ClipInfoResp) :
  awaiting p s = true -> type p = clip ->
  parsed (step s (ClipInfoSettled p (Some info))) = parsed s
  /\ preview (step s (ClipInfoSettled p (Some info)))
     = Some {| title := clip_title info; channel := clip_channel info;
               thumbnail := clip_thumbnail info; duration := None |}.
Proof.
  intros Haw Hty. unfold step. rewrite commit_pass.
  set (cur := handle (ClipInfoSettled p (Some info)) s).
  assert (Hcur : cur = set_fetchingInfo false
                         (clip_info_loaded info
                            (set_inflight (remove_first p (inflight s)) s))).
  { unfold cur, handle, clip_info_settled. now rewrite Haw, Hty. }
  assert (Hpar : parsed cur = parsed s) by now rewrite Hcur.
  split.
  - now rewrite effects_pass_parsed.
  - rewrite effects_pass_preview, Hpar, same_deps_refl. now rewrite Hcur.
Qed.

(** C1, as the code has it: the answer to a fetch that was started for [p]
    is applied when it arrives even though the current reference is no
    longer [p] (another one, or none): the current reference stays, and the
    preview becomes that of [p]; for a video the end-time text (duration
    above 0) and the quality set follow, with the selection reset when the
    set is not empty. *)
Theorem late_result_applied (s : App) (p : MediaRef) :
  awaiting p s = true ->
  same_deps (parsed s) (Some p) = false ->
  (forall info : VodInfo,
      type p = video ->
      parsed (step s (VideoInfoSettled p (Some info))) = parsed s
      /\ preview (step s (VideoInfoSettled p (Some info)))
         = Some (preview_of_vod info)
      /\ (0 < vod_duration info ->
          endTime (step s (VideoInfoSettled p (Some info)))
          = secondsToHms (JS.Num (vod_duration info)))
      /\ availableQualities (step s (VideoInfoSettled p (Some info)))
         = sortedQualities (qualities info)
      /\ (qualities info <> [] ->
          selectedQuality (step s (VideoInfoSettled p (Some info)))
          = "auto"))
  /\ (forall info : ClipInfoResp,
         type p = clip ->
         parsed (step s (ClipInfoSettled p (Some info))) = parsed s
         /\ preview (step s (ClipInfoSettled p (Some info)))
            = Some {| title := clip_title info; channel := clip_channel info;
                      thumbnail := clip_thumbnail info; duration := None |}).
Proof.
  intros Haw _. split.
  - intros info Hty.
    destruct (video_info_settled_stores s p info Haw Hty)
      as (Hpar & Hprev & Hend & Hq & Hsel).
    cbv zeta in *. repeat split; auto.
    intros Hne. rewrite Hsel. destruct (qualities info); congruence.
  - intros info Hty. now apply clip_info_settled_stores.
Qed.

Lemma late_result_applied_witness :
  parsed (step (run superseded_run initial)
            (VideoInfoSettled (mkRef video "111") (Some vod_with_qualities)))
  = parsed (run superseded_run initial)
  /\ preview (step (run superseded_run initial)
                (VideoInfoSettled (mkRef video "111")
                   (Some vod_with_qualities)))
     = Some (preview_of_vod vod_with_qualities).
Proof.
  pose proof (proj1 (late_result_applied (run superseded_run initial)
                       (mkRef video "111") eq_refl eq_refl)
                vod_with_qualities eq_refl) as H.
  split; [exact (proj1 H) | exact (proj1 (proj2 H))].
Defined.

(** ** Metadata resolver: debounce *)

Lemma effects_pass_unchanged (prev cur : App) :
  videoInput prev = videoInput cur -> startTime prev = startTime cur ->
  endTime prev = endTime cur -> preview prev = preview cur ->
  effects_pass prev cur = cur.
Proof.
  intros H1 H2 H3 H4.
  assert (Hc : isClip prev = isClip cur)
    by (unfold isClip, parsed; now rewrite H1).
  unfold effects_pass.
  rewrite (same_end_deps_of_fields prev cur H3 H4 Hc).
  rewrite (same_start_deps_of_fields prev cur H2 H4 Hc).
  unfold parsed. now rewrite H1, same_deps_refl.
Qed.

(** A change of the reference re-arms the timer and invokes nothing. *)
Lemma step_change (s : App) (text : string) :
  isBusy s = false -> same_deps (parsed s) (parseInput text) = false ->
  calls (step s (ChangeVideoInput text)) = calls s
  /\ isBusy (step s (ChangeVideoInput text)) = false
  /\ videoInput (step s (ChangeVideoInput text)) = text
  /\ clock (step s (ChangeVideoInput text)) = clock s
  /\ inflight (step s (ChangeVideoInput text)) = inflight s
  /\ timer (step s (ChangeVideoInput text)) = armed (clock s) text.
Proof.
  intros Hbusy Hdeps. unfold step. rewrite commit_pass.
  unfold handle, change_videoInput. rewrite Hbusy.
  rewrite effects_pass_calls, effects_pass_isBusy, effects_pass_videoInput,
    effects_pass_clock, effects_pass_inflight, effects_pass_timer.
  change (parsed (set_videoInput text s)) with (parseInput text).
  rewrite Hdeps. repeat split; auto.
Qed.

(** Time that passes short of the due time changes the clock only. *)
Lemma step_elapse_early (s : App) (text : string) (now dt : nat) :
  timer s = armed now text -> (clock s + dt < now + QUIET_PERIOD)%nat ->
  step s (Elapse dt) = set_clock (clock s + dt)%nat s.
Proof.
  intros Ht Hlt. unfold step. rewrite commit_pass.
  assert (Hh : handle (Elapse dt) s = set_clock (clock s + dt)%nat s).
  { unfold handle, elapse. simpl timer. simpl clock. rewrite Ht. unfold armed.
    destruct (parseInput text) as [p |]; [| reflexivity].
    destruct (Nat.leb_spec (now + QUIET_PERIOD) (clock s + dt));
      [lia | reflexivity]. }
  rewrite Hh. now apply effects_pass_unchanged.
Qed.


Lemma run_app (es fs : list Event) (s : App) :
  run (es ++ fs) s = run fs (run es s).
Proof. apply fold_left_app. Qed.

Lemma run_cons (e : Event) (es : list Event) (s : App) :
  run (e :: es) s = run es (step s e).
Proof. reflexivity. Qed.

Lemma run_one (e : Event) (s : App) : run [e] s = step s e.
Proof. reflexivity. Qed.

Lemma last_cons (A : Type) (l : list A) :
  forall a d, last (a :: l) d = last l a.
Proof.
  induction l as [| b l IH]; intros a d; [reflexivity |].
  change (last (a :: b :: l) d) with (last (b :: l) d).
  now rewrite !IH.
Qed.

(** Through the changes that follow the first one, nothing is invoked and
    the pending timer is always the one of the latest text. *)
Lemma burst_pending (rest : list (nat * string)) :
  forall (s : App) (text : string),
    isBusy s = false -> videoInput s = text ->
    timer s = armed (clock s) text ->
    changes (parseInput text) (map snd rest) ->
    Forall (fun gt => (fst gt < QUIET_PERIOD)%nat) rest ->
    calls (run (burst_events rest) s) = calls s
    /\ inflight (run (burst_events rest) s) = inflight s
    /\ timer (run (burst_events rest) s)
       = armed (clock (run (burst_events rest) s))
           (last (map snd rest) text).
Proof.
  induction rest as [| [gap t] rest IH]; intros s text Hbusy Hin Ht Hch Hgaps.
  - simpl. auto.
  - simpl in Hch. destruct Hch as [Hdeps Hch].
    inversion Hgaps as [| ? ? Hgap Hgaps']; subst. simpl in Hgap.
    simpl burst_events. rewrite !run_cons.
    rewrite (step_elapse_early s (videoInput s) (clock s) gap Ht) by lia.
    set (s1 := set_clock (clock s + gap)%nat s).
    destruct (step_change s1 t Hbusy Hdeps)
      as (Hc & Hb & Hv & Hk & Hf & Htm).
    set (s2 := step s1 (ChangeVideoInput t)) in *.
    rewrite <- Hk in Htm.
    destruct (IH s2 t Hb Hv Htm Hch Hgaps') as (IHc & IHf & IHt).
    rewrite IHc, IHf, IHt, Hc, Hf. simpl map. rewrite last_cons.
    repeat split.
Qed.



(** When the burst ends on a text that is no reference, no fetch is
    started at all. *)
Lemma burst_to_no_reference (s : App) (text : string)
  (rest : list (nat * string)) (quiet : nat) :
  isBusy s = false ->
  changes (parsed s) (text :: map snd rest) ->
  Forall (fun gt => (fst gt < QUIET_PERIOD)%nat) rest ->
  parseInput (last (map snd rest) text) = None ->
  calls (run (ChangeVideoInput text :: burst_events rest ++ [Elapse quiet]) s)
  = calls s.
Proof.
  intros Hbusy [Hdeps Hch] Hgaps Hfinal.
  destruct (step_change s text Hbusy Hdeps) as (Hc & Hb & Hv & Hk & _ & Htm).
  rewrite run_cons, run_app, run_one.
  set (s1 := step s (ChangeVideoInput text)) in *.
  rewrite <- Hk in Htm.
  destruct (burst_pending rest s1 text Hb Hv Htm Hch Hgaps) as (Bc & _ & Bt).
  set (s2 := run (burst_events rest) s1) in *.
  unfold armed in Bt. rewrite Hfinal in Bt.
  unfold step. rewrite commit_pass.
  assert (Hh : handle (Elapse quiet) s2 = set_clock (clock s2 + quiet)%nat s2).
  { unfold handle, elapse. simpl timer. now rewrite Bt. }
  rewrite Hh, effects_pass_unchanged by reflexivity.
  simpl. now rewrite Bc, Hc.
Qed.

(** A re-render with another text for the same reference is no change: the
    pending timer keeps its due time. *)
Example same_reference_other_text :
  parseInput "chzzk.naver.com/video/123" = parseInput " 123 "
  /\ timer (run [ChangeVideoInput "123"; Elapse 400;
                 ChangeVideoInput "chzzk.naver.com/video/123"] initial)
     = Some (500%nat, mkRef video "123").
Proof. split; vm_compute; reflexivity. Qed.

(** While busy the URL field is disabled, so the reference cannot change. *)
Lemma change_videoInput_while_busy (s : App) (text : string) :
  isBusy s = true -> step s (ChangeVideoInput text) = s.
Proof.
  intros H. unfold step, handle, change_videoInput. rewrite H.
  apply commit_same.
Qed.

(** * Further properties of the code *)

(** ** Fields of a time text *)

Lemma split_segments_no_colon (s : string) :
  Forall (fun p => JS.includes p ":" = false) (JS.split ":" s).
Proof.
  induction s as [| c r IH]; simpl.
  - repeat constructor.
  - destruct (Ascii.eqb c ":") eqn:E.
    + constructor; [reflexivity | exact IH].
    + destruct (JS.split ":" r) as [| h t].
      * constructor; [simpl; now rewrite E | constructor].
      * inversion IH; subst. constructor; [simpl; now rewrite E | assumption].
Qed.

Lemma repeat_char_no_colon (n : nat) :
  JS.includes (JS.repeat_char "0" n) ":" = false.
Proof. induction n; simpl; auto. Qed.

Lemma length_append (a b : string) :
  String.length (a ++ b) = (String.length a + String.length b)%nat.
Proof. induction a as [| c r IH]; simpl; [reflexivity | now rewrite IH]. Qed.

Lemma length_repeat_char (c : ascii) (n : nat) :
  String.length (JS.repeat_char c n) = n.
Proof. induction n; simpl; [reflexivity | now f_equal]. Qed.

Lemma padStart2_field (v : string) :
  JS.includes v ":" = false -> field_ok (JS.padStart 2 "0" v).
Proof.
  intros H. unfold field_ok, JS.padStart. split.
  - now rewrite includes_app, repeat_char_no_colon, H.
  - rewrite length_append, length_repeat_char. lia.
Qed.

Lemma str_or_no_colon (parts : list string) (i : nat) :
  Forall (fun p => JS.includes p ":" = false) parts ->
  JS.includes (JS.str_or (nth_error parts i) "00") ":" = false.
Proof.
  intros H. destruct (nth_error parts i) as [p |] eqn:E; [| reflexivity].
  apply nth_error_In in E. rewrite Forall_forall in H. specialize (H p E).
  destruct p; [reflexivity | exact H].
Qed.

(** Whatever the text, [parseTimeString] yields three proper fields. *)
Lemma parseTimeString_fields (v : string) :
  field_ok (fst (fst (parseTimeString v)))
  /\ field_ok (snd (fst (parseTimeString v)))
  /\ field_ok (snd (parseTimeString v)).
Proof.
  unfold parseTimeString. cbn [fst snd].
  pose proof (split_segments_no_colon v) as H.
  repeat split; apply padStart2_field, str_or_no_colon, H.
Qed.

Lemma field_ok_nonempty (f : string) :
  field_ok f -> JS.str_or (Some f) "00" = f.
Proof. intros [_ H]. destruct f; [simpl in H; lia | reflexivity]. Qed.

(** Three proper fields joined by colons are read back as they are. *)
Lemma parseTimeString_join (a b c : string) :
  field_ok a -> field_ok b -> field_ok c ->
  parseTimeString (a ++ ":" ++ b ++ ":" ++ c) = (a, b, c).
Proof.
  intros Ha Hb Hc. unfold parseTimeString.
  change (a ++ ":" ++ b ++ ":" ++ c)
    with (a ++ String ":" (b ++ String ":" c)).
  rewrite (split_at_colon a _ (proj1 Ha)), (split_at_colon b _ (proj1 Hb)),
    (split_no_colon c (proj1 Hc)).
  simpl nth_error.
  rewrite !field_ok_nonempty by assumption.
  now rewrite !padStart2_long by (apply Ha || apply Hb || apply Hc).
Qed.



Lemma charAt1_field (f : string) :
  field_ok f ->
  exists x, JS.charAt f 1 = key_of x /\ Ascii.eqb x ":" = false.
Proof.
  intros [Hc Hl]. destruct f as [| a [| x r]]; simpl in Hl; try lia.
  exists x. split; [reflexivity |].
  simpl in Hc. apply orb_false_iff in Hc. destruct Hc as [_ Hc].
  apply orb_false_iff in Hc. tauto.
Qed.

Lemma shifted_field_ok (f : string) (k : ascii) :
  field_ok f -> JS.is_digit k = true ->
  field_ok (JS.padStart 2 "0" (JS.charAt f 1 ++ key_of k)).
Proof.
  intros Hf Hk. destruct (charAt1_field f Hf) as (x & -> & Hx).
  split; [| simpl; lia].
  simpl. now rewrite Hx, (digit_not_char k ":").
Qed.

Lemma is_digit_key_form (key : string) :
  is_digit_key key = true ->
  exists k, key = key_of k /\ JS.is_digit k = true.
Proof.
  destruct key as [| k [| x r]]; try discriminate. intros H. now exists k.
Qed.



Lemma field_ok_00 : field_ok "00".
Proof. split; [reflexivity | simpl; lia]. Qed.





(** ** Composition of the editing operations *)

Lemma parseTimeString_eta (v : string) :
  parseTimeString v = (hh_of v, mm_of v, ss_of v).
Proof.
  unfold hh_of, mm_of, ss_of. now destruct (parseTimeString v) as [[a b] c].
Qed.

Lemma fields_of_ok (v : string) :
  field_ok (hh_of v) /\ field_ok (mm_of v) /\ field_ok (ss_of v).
Proof. apply parseTimeString_fields. Qed.

Lemma handleTimeInput_digit_key (v : string) (k : ascii) (p : Z) :
  JS.is_digit k = true ->
  handleTimeInput v (key_of k) p = enter_digit (field_of_cursor p) v (key_of k).
Proof.
  intros Hk. unfold handleTimeInput. simpl is_digit_key. now rewrite Hk.
Qed.

Lemma enter_digit_join (field : Field) (a b c : string) (k : ascii) :
  field_ok a -> field_ok b -> field_ok c ->
  enter_digit field (a ++ ":" ++ b ++ ":" ++ c) (key_of k)
  = match field with
    | hours => JS.padStart 2 "0" (JS.charAt a 1 ++ key_of k)
               ++ ":" ++ b ++ ":" ++ c
    | minutes => a ++ ":" ++ JS.padStart 2 "0" (JS.charAt b 1 ++ key_of k)
                 ++ ":" ++ c
    | seconds => a ++ ":" ++ b ++ ":"
                 ++ JS.padStart 2 "0" (JS.charAt c 1 ++ key_of k)
    end.
Proof.
  intros Ha Hb Hc. unfold enter_digit.
  rewrite (parseTimeString_join a b c Ha Hb Hc). now destruct field.
Qed.

Lemma enter_digit_any (field : Field) (v : string) (k : ascii) :
  enter_digit field v (key_of k)
  = enter_digit field (hh_of v ++ ":" ++ mm_of v ++ ":" ++ ss_of v) (key_of k).
Proof.
  destruct (fields_of_ok v) as (Hh & Hm & Hs).
  unfold enter_digit at 2.
  rewrite (parseTimeString_join _ _ _ Hh Hm Hs).
  unfold enter_digit. now rewrite parseTimeString_eta.
Qed.

Lemma shift_twice (f : string) (a b : ascii) :
  field_ok f ->
  JS.padStart 2 "0"
    (JS.charAt (JS.padStart 2 "0" (JS.charAt f 1 ++ key_of a)) 1 ++ key_of b)
  = String a (String b "").
Proof.
  intros Hf. destruct (charAt1_field f Hf) as (x & -> & _). reflexivity.
Qed.

Lemma fill_field_by_two_digits (v : string) (a b : ascii) (p q : Z) :
  JS.is_digit a = true -> JS.is_digit b = true ->
  field_of_cursor p = field_of_cursor q ->
  handleTimeInput (handleTimeInput v (key_of a) p) (key_of b) q
  = match field_of_cursor p with
    | hours => String a (String b "") ++ ":" ++ mm_of v ++ ":" ++ ss_of v
    | minutes => hh_of v ++ ":" ++ String a (String b "") ++ ":" ++ ss_of v
    | seconds => hh_of v ++ ":" ++ mm_of v ++ ":" ++ String a (String b "")
    end.
Proof.
  intros Ha Hb Hpq.
  destruct (fields_of_ok v) as (Hh & Hm & Hs).
  rewrite !handleTimeInput_digit_key by assumption. rewrite <- Hpq.
  rewrite (enter_digit_any _ v), enter_digit_join by assumption.
  destruct (field_of_cursor p);
    rewrite enter_digit_join by auto using shifted_field_ok;
    now rewrite shift_twice.
Qed.

(** X2: two digit keys in the same sub-field replace it by the two digits
    typed, whatever the field text held; the two other sub-fields are what
    [parseTimeString] reads from the text. *)
Theorem two_digits_fill_field (v : string) (a b : ascii) (p q : Z) :
  JS.is_digit a = true -> JS.is_digit b = true ->
  field_of_cursor p = field_of_cursor q ->
  handleTimeInput (handleTimeInput v (key_of a) p) (key_of b) q
  = match field_of_cursor p with
    | hours => String a (String b "") ++ ":" ++ mm_of v ++ ":" ++ ss_of v
    | minutes => hh_of v ++ ":" ++ String a (String b "") ++ ":" ++ ss_of v
    | seconds => hh_of v ++ ":" ++ mm_of v ++ ":" ++ String a (String b "")
    end.
Proof. apply fill_field_by_two_digits. Qed.

Lemma two_digits_fill_field_witness :
  handleTimeInput (handleTimeInput "7:5" "4" 3) "2" 5 = "07:42:00".
Proof.
  exact (two_digits_fill_field "7:5" "4" "2" 3 5 eq_refl eq_refl eq_refl).
Defined.

Lemma backspace_time_join (a b c : string) (p : Z) :
  field_ok a -> field_ok b -> field_ok c ->
  backspace_time (a ++ ":" ++ b ++ ":" ++ c) p
  = match field_of_cursor p with
    | hours => ("0" ++ slice_first a) ++ ":" ++ b ++ ":" ++ c
    | minutes => a ++ ":" ++ ("0" ++ slice_first b) ++ ":" ++ c
    | seconds => a ++ ":" ++ b ++ ":" ++ ("0" ++ slice_first c)
    end.
Proof.
  intros Ha Hb Hc. unfold backspace_time.
  now rewrite (parseTimeString_join a b c Ha Hb Hc).
Qed.

Lemma slice_shifted (f : string) (k : ascii) :
  field_ok f ->
  "0" ++ slice_first (JS.padStart 2 "0" (JS.charAt f 1 ++ key_of k))
  = "0" ++ JS.charAt f 1.
Proof.
  intros Hf. destruct (charAt1_field f Hf) as (x & -> & _). reflexivity.
Qed.

Lemma backspace_time_after_digit (v : string) (k : ascii) (p q : Z) :
  JS.is_digit k = true ->
  field_of_cursor p = field_of_cursor q ->
  backspace_time (handleTimeInput v (key_of k) p) q
  = match field_of_cursor p with
    | hours => ("0" ++ JS.charAt (hh_of v) 1) ++ ":" ++ mm_of v
               ++ ":" ++ ss_of v
    | minutes => hh_of v ++ ":" ++ ("0" ++ JS.charAt (mm_of v) 1)
                 ++ ":" ++ ss_of v
    | seconds => hh_of v ++ ":" ++ mm_of v ++ ":"
                 ++ ("0" ++ JS.charAt (ss_of v) 1)
    end.
Proof.
  intros Hk Hpq.
  destruct (fields_of_ok v) as (Hh & Hm & Hs).
  rewrite handleTimeInput_digit_key by assumption.
  rewrite (enter_digit_any _ v), enter_digit_join by assumption.
  destruct (field_of_cursor p);
    rewrite backspace_time_join by auto using shifted_field_ok;
    rewrite <- Hpq; now rewrite slice_shifted.
Qed.

Example backspace_time_after_digit_sample :
  backspace_time (handleTimeInput "12:34:56" "7" 6) 8 = "12:34:06".
Proof. reflexivity. Qed.

(** *** The start field inside the component

    A handler that sets the start text to one the clamp leaves alone is all
    that the event does: no effect of the following render touches the
    state. *)

Lemma key_of_in_digit_range (k : ascii) :
  JS.is_digit k = true -> key_in_digit_range (key_of k) = true.
Proof.
  intros Hk. pose proof (is_digit_inv k Hk) as H. unfold key_of.
  simpl in H.
  repeat (destruct H as [H | H]; [now rewrite <- H |]).
  contradiction.
Qed.

Lemma step_set_startTime (s : App) (e : Event) (t : string) :
  handle e s = set_startTime t s -> start_unclamped s t = true ->
  step s e = set_startTime t s.
Proof.
  intros Hh Hu. unfold step. rewrite Hh, commit_pass. unfold effects_pass.
  change (parsed (set_startTime t s)) with (parsed s).
  rewrite same_deps_refl.
  rewrite (same_end_deps_of_fields s (set_startTime t s)) by reflexivity.
  unfold start_unclamped in Hu.
  destruct (start_effect (set_startTime t s)); [discriminate |].
  now destruct (same_start_deps s (set_startTime t s)).
Qed.

Lemma step_key_startTime (s : App) (k : ascii) (p : Z) :
  isBusy s = false -> JS.is_digit k = true ->
  start_unclamped s (handleTimeInput (startTime s) (key_of k) p) = true ->
  step s (KeyStartTime (key_of k) p)
  = set_startTime (handleTimeInput (startTime s) (key_of k) p) s.
Proof.
  intros Hb Hk Hu. apply step_set_startTime; [| exact Hu].
  unfold handle, keydown_startTime.
  now rewrite Hb, (key_of_in_digit_range k Hk).
Qed.

(** X3: in the start field, while the form is not busy, a Backspace right
    after a digit key in the same sub-field takes the typed digit out
    again, provided the start clamp leaves alone the text the key produces
    and the text the Backspace produces: the sub-field becomes ["0"]
    followed by the low digit it had before the key (its former high digit
    is lost), the two other sub-fields are kept, and nothing else in the
    state changes. *)
Theorem start_backspace_after_digit (s : App) (k : ascii) (p q : Z) :
  isBusy s = false ->
  JS.is_digit k = true ->
  field_of_cursor p = field_of_cursor q ->
  start_unclamped s (handleTimeInput (startTime s) (key_of k) p) = true ->
  start_unclamped s
    (backspace_time (handleTimeInput (startTime s) (key_of k) p) q) = true ->
  run [KeyStartTime (key_of k) p; BackspaceStartTime q] s
  = set_startTime
      match field_of_cursor p with
      | hours => ("0" ++ JS.charAt (hh_of (startTime s)) 1)
                 ++ ":" ++ mm_of (startTime s) ++ ":" ++ ss_of (startTime s)
      | minutes => hh_of (startTime s) ++ ":"
                   ++ ("0" ++ JS.charAt (mm_of (startTime s)) 1)
                   ++ ":" ++ ss_of (startTime s)
      | seconds => hh_of (startTime s) ++ ":" ++ mm_of (startTime s) ++ ":"
                   ++ ("0" ++ JS.charAt (ss_of (startTime s)) 1)
      end s.
Proof.
  intros Hb Hk Hpq Hu1 Hu2.
  rewrite run_cons, run_one, (step_key_startTime s k p Hb Hk Hu1).
  set (t1 := handleTimeInput (startTime s) (key_of k) p) in *.
  rewrite (step_set_startTime (set_startTime t1 s) (BackspaceStartTime q)
             (backspace_time t1 q)).
  - unfold t1. now rewrite (backspace_time_after_digit _ k p q Hk Hpq).
  - unfold handle, backspace_startTime.
    change (isBusy (set_startTime t1 s)) with (isBusy s). now rewrite Hb.
  - exact Hu2.
Qed.

Lemma start_backspace_after_digit_witness :
  run [KeyStartTime "3" 4; BackspaceStartTime 5] editing_state
  = set_startTime "00:02:00" editing_state.
Proof.
  exact (start_backspace_after_digit editing_state "3" 4 5
           eq_refl eq_refl eq_refl eq_refl eq_refl).
Defined.

Lemma click_time_join (a b c : string) (p : Z) :
  field_ok a -> field_ok b -> field_ok c ->
  click_time (a ++ ":" ++ b ++ ":" ++ c) p
  = match field_of_cursor p with
    | hours => "00" ++ ":" ++ b ++ ":" ++ c
    | minutes => a ++ ":" ++ "00" ++ ":" ++ c
    | seconds => a ++ ":" ++ b ++ ":" ++ "00"
    end.
Proof.
  intros Ha Hb Hc. unfold click_time.
  now rewrite (parseTimeString_join a b c Ha Hb Hc).
Qed.

Lemma click_time_reset_form (v : string) (p : Z) :
  click_time v p
  = match field_of_cursor p with
    | hours => "00" ++ ":" ++ mm_of v ++ ":" ++ ss_of v
    | minutes => hh_of v ++ ":" ++ "00" ++ ":" ++ ss_of v
    | seconds => hh_of v ++ ":" ++ mm_of v ++ ":" ++ "00"
    end.
Proof.
  unfold click_time. rewrite parseTimeString_eta.
  now destruct (field_of_cursor p).
Qed.

Lemma click_time_twice (v : string) (p q : Z) :
  field_of_cursor p = field_of_cursor q ->
  click_time (click_time v p) q = click_time v p.
Proof.
  intros Hpq. destruct (fields_of_ok v) as (Hh & Hm & Hs).
  rewrite (click_time_reset_form v p).
  destruct (field_of_cursor p);
    rewrite click_time_join by auto using field_ok_00;
    now rewrite <- Hpq.
Qed.

Example click_time_twice_sample :
  click_time "1:2" 4 = "01:00:00" /\ click_time (click_time "1:2" 4) 3 = "01:00:00".
Proof. split; reflexivity. Qed.

(** X4: in the start field, while the form is not busy, a click resets the
    sub-field under the caret to ["00"] and keeps the two others as
    [parseTimeString] reads them, provided the start clamp leaves the
    resulting text alone; nothing else in the state changes, and a second
    click in the same sub-field changes nothing at all. *)
Theorem start_click_resets_once (s : App) (p q : Z) :
  isBusy s = false ->
  field_of_cursor p = field_of_cursor q ->
  start_unclamped s (click_time (startTime s) p) = true ->
  step s (ClickStartTime p)
  = set_startTime
      match field_of_cursor p with
      | hours => "00" ++ ":" ++ mm_of (startTime s) ++ ":" ++ ss_of (startTime s)
      | minutes => hh_of (startTime s) ++ ":" ++ "00" ++ ":"
                   ++ ss_of (startTime s)
      | seconds => hh_of (startTime s) ++ ":" ++ mm_of (startTime s)
                   ++ ":" ++ "00"
      end s
  /\ step (step s (ClickStartTime p)) (ClickStartTime q)
     = step s (ClickStartTime p).
Proof.
  intros Hb Hpq Hu.
  assert (E : step s (ClickStartTime p)
              = set_startTime (click_time (startTime s) p) s).
  { apply step_set_startTime; [| exact Hu].
    unfold handle, click_startTime. now rewrite Hb. }
  split.
  - rewrite E. now rewrite (click_time_reset_form (startTime s) p).
  - rewrite E. unfold step at 1.
    assert (Hh : handle (ClickStartTime q)
                   (set_startTime (click_time (startTime s) p) s)
                 = set_startTime (click_time (startTime s) p) s).
    { unfold handle, click_startTime.
      change (isBusy (set_startTime (click_time (startTime s) p) s))
        with (isBusy s).
      rewrite Hb.
      change (startTime (set_startTime (click_time (startTime s) p) s))
        with (click_time (startTime s) p).
      now rewrite (click_time_twice (startTime s) p q Hpq). }
    rewrite Hh. apply commit_same.
Qed.

Lemma start_click_resets_once_witness :
  step editing_state (ClickStartTime 4)
  = set_startTime "00:00:00" editing_state
  /\ step (step editing_state (ClickStartTime 4)) (ClickStartTime 3)
     = step editing_state (ClickStartTime 4).
Proof.
  exact (start_click_resets_once editing_state 4 3 eq_refl eq_refl eq_refl).
Defined.

(** ** Caret movement *)

Lemma next_caret_values (p : Z) :
  next_caret p = 1 \/ next_caret p = 3 \/ next_caret p = 4
  \/ next_caret p = 6 \/ next_caret p = 7 \/ next_caret p = 8.
Proof.
  unfold next_caret.
  repeat match goal with
         | |- context [if ?b then _ else _] => destruct b
         end; tauto.
Qed.

(** X5: after a digit key the caret never rests in front of a colon
    (positions 2 and 5) and never leaves the field ([1 <= caret <= 8]); from
    a position [0..7] it moves forward by one or two, and the digit typed
    next goes into the same sub-field exactly when the key was typed at the
    first digit of a sub-field (positions 0, 3, 6) or at the last digit of
    the seconds (position 7, after which the caret stays at the end). *)
Theorem next_caret_moves (p : Z) :
  1 <= next_caret p <= 8
  /\ next_caret p <> 2 /\ next_caret p <> 5
  /\ (0 <= p <= 7 -> p < next_caret p <= p + 2)
  /\ (0 <= p <= 7 ->
      (field_of_cursor (next_caret p) = field_of_cursor p
       <-> p = 0 \/ p = 3 \/ p = 6 \/ p = 7)).
Proof.
  pose proof (next_caret_values p) as Hv.
  split; [lia |]. split; [lia |]. split; [lia |].
  assert (Hc : 0 <= p <= 7 ->
               p = 0 \/ p = 1 \/ p = 2 \/ p = 3 \/ p = 4 \/ p = 5
               \/ p = 6 \/ p = 7) by lia.
  split; intros Hp; specialize (Hc Hp); clear Hv Hp;
    repeat (destruct Hc as [Hc | Hc]); subst p.
  all: try (change (next_caret 0) with 1; change (next_caret 1) with 3;
            change (next_caret 2) with 3; change (next_caret 3) with 4;
            change (next_caret 4) with 6; change (next_caret 5) with 6;
            change (next_caret 6) with 7; change (next_caret 7) with 8; lia).
  all: split; intros H;
    first [ reflexivity | lia | vm_compute in H; discriminate ].
Qed.

Lemma next_caret_moves_witness :
  4 < next_caret 4 <= 4 + 2.
Proof.
  apply (proj1 (proj2 (proj2 (proj2 (next_caret_moves 4))))). lia.
Defined.

Lemma fields_of_join (a b c : string) :
  field_ok a -> field_ok b -> field_ok c ->
  hh_of (a ++ ":" ++ b ++ ":" ++ c) = a
  /\ mm_of (a ++ ":" ++ b ++ ":" ++ c) = b
  /\ ss_of (a ++ ":" ++ b ++ ":" ++ c) = c.
Proof.
  intros Ha Hb Hc. unfold hh_of, mm_of, ss_of.
  now rewrite (parseTimeString_join a b c Ha Hb Hc).
Qed.

Lemma two_chars_field (a b : ascii) :
  JS.is_digit a = true -> JS.is_digit b = true ->
  field_ok (String a (String b "")).
Proof.
  intros Ha Hb. split; [| simpl; lia].
  simpl. now rewrite (digit_not_char a ":"), (digit_not_char b ":").
Qed.

Lemma type_six_digits (v : string) (k1 k2 k3 k4 k5 k6 : ascii) :
  JS.is_digit k1 = true -> JS.is_digit k2 = true -> JS.is_digit k3 = true ->
  JS.is_digit k4 = true -> JS.is_digit k5 = true -> JS.is_digit k6 = true ->
  type_digits [key_of k1; key_of k2; key_of k3; key_of k4; key_of k5;
               key_of k6] (v, 0)
  = (time_buffer k1 k2 k3 k4 k5 k6, 8).
Proof.
  intros H1 H2 H3 H4 H5 H6.
  destruct (fields_of_ok v) as (Hh & Hm & Hs).
  pose proof (two_chars_field k1 k2 H1 H2) as F12.
  pose proof (two_chars_field k3 k4 H3 H4) as F34.
  unfold type_digits, type_digit. cbn [fold_left fst snd].
  change (next_caret 0) with 1. change (next_caret 1) with 3.
  change (next_caret 3) with 4. change (next_caret 4) with 6.
  change (next_caret 6) with 7. change (next_caret 7) with 8.
  f_equal.
  rewrite (fill_field_by_two_digits v k1 k2 0 1 H1 H2 eq_refl).
  cbn [field_of_cursor Z.leb Z.compare Pos.compare Pos.compare_cont].
  change (field_of_cursor 0) with hours. cbv iota.
  set (t1 := String k1 (String k2 "") ++ ":" ++ mm_of v ++ ":" ++ ss_of v).
  rewrite (fill_field_by_two_digits t1 k3 k4 3 4 H3 H4 eq_refl).
  change (field_of_cursor 3) with minutes. cbv iota.
  destruct (fields_of_join _ _ _ F12 Hm Hs) as (E1 & _ & E3).
  fold t1 in E1, E3. rewrite E1, E3.
  set (t2 := String k1 (String k2 "") ++ ":" ++ String k3 (String k4 "")
             ++ ":" ++ ss_of v).
  rewrite (fill_field_by_two_digits t2 k5 k6 6 7 H5 H6 eq_refl).
  change (field_of_cursor 6) with seconds. cbv iota.
  destruct (fields_of_join _ _ _ F12 F34 Hs) as (E1' & E2' & _).
  fold t2 in E1', E2'. now rewrite E1', E2'.
Qed.

Example type_six_digits_sample :
  type_digits ["0"; "1"; "3"; "0"; "4"; "5"] ("9", 0) = ("01:30:45", 8).
Proof. reflexivity. Qed.

(** Digit keys typed into the start field, none of the texts on the way
    being one the clamp replaces: the component does what the pure
    operation does, and touches nothing but the start text. *)
Lemma run_start_keys (ks : list ascii) :
  forall (s : App) (p : Z),
    isBusy s = false ->
    forallb JS.is_digit ks = true ->
    forallb (start_unclamped s)
      (typed_texts (map key_of ks) (startTime s, p)) = true ->
    run (start_keys (map key_of ks) p) s
    = set_startTime (fst (type_digits (map key_of ks) (startTime s, p))) s.
Proof.
  induction ks as [| k ks IH]; intros s p Hb Hk Hu.
  - simpl. symmetry. apply set_startTime_same.
  - cbn [map forallb typed_texts] in Hk, Hu.
    apply andb_prop in Hk as [Hk Hks]. apply andb_prop in Hu as [Hu Hus].
    cbn [map start_keys]. rewrite run_cons.
    rewrite (step_key_startTime s k p Hb Hk Hu).
    set (t1 := handleTimeInput (startTime s) (key_of k) p) in *.
    rewrite (IH (set_startTime t1 s) (next_caret p)).
    + reflexivity.
    + exact Hb.
    + exact Hks.
    + exact Hus.
Qed.

(** X6: in the start field, while the form is not busy, six digit keys
    typed from caret 0, the caret following after each key, overwrite the
    field with exactly the six digits typed, whatever text it held before,
    provided the start clamp leaves alone each of the six texts the field
    goes through; nothing else in the state changes. *)
Theorem start_six_digits_fill (s : App) (k1 k2 k3 k4 k5 k6 : ascii) :
  isBusy s = false ->
  forallb JS.is_digit [k1; k2; k3; k4; k5; k6] = true ->
  forallb (start_unclamped s)
    (typed_texts (map key_of [k1; k2; k3; k4; k5; k6]) (startTime s, 0))
  = true ->
  run (start_keys (map key_of [k1; k2; k3; k4; k5; k6]) 0) s
  = set_startTime (time_buffer k1 k2 k3 k4 k5 k6) s.
Proof.
  intros Hb Hk Hu.
  rewrite (run_start_keys [k1; k2; k3; k4; k5; k6] s 0 Hb Hk Hu).
  cbn [forallb] in Hk.
  repeat match type of Hk with
         | (_ && _) = true => apply andb_prop in Hk as [? Hk]
         end.
  cbn [map]. now rewrite type_six_digits.
Qed.

Lemma start_six_digits_fill_witness :
  run (start_keys ["0"; "0"; "4"; "0"; "3"; "0"] 0) editing_state
  = set_startTime "00:40:30" editing_state.
Proof.
  exact (start_six_digits_fill editing_state "0" "0" "4" "0" "3" "0"
           eq_refl eq_refl eq_refl).
Defined.

Lemma is_time_buffer_inv (t : string) :
  is_time_buffer t = true ->
  exists h1 h2 m1 m2 s1 s2,
    t = time_buffer h1 h2 m1 m2 s1 s2
    /\ JS.is_digit h1 = true /\ JS.is_digit h2 = true
    /\ JS.is_digit m1 = true /\ JS.is_digit m2 = true
    /\ JS.is_digit s1 = true /\ JS.is_digit s2 = true.
Proof.
  destruct t as [| h1 [| h2 [| c1 [| m1 [| m2 [| c2 [| s1 [| s2 [| x r]]]]]]]]];
    try discriminate.
  simpl. intros H.
  do 7 (apply andb_true_iff in H; destruct H as [H ?]).
  exists h1, h2, m1, m2, s1, s2.
  repeat match goal with
         | E : Ascii.eqb _ _ = true |- _ => apply Ascii.eqb_eq in E; subst
         end.
  repeat split; assumption.
Qed.

Lemma is_time_buffer_intro (h1 h2 m1 m2 s1 s2 : ascii) :
  JS.is_digit h1 = true -> JS.is_digit h2 = true ->
  JS.is_digit m1 = true -> JS.is_digit m2 = true ->
  JS.is_digit s1 = true -> JS.is_digit s2 = true ->
  is_time_buffer (time_buffer h1 h2 m1 m2 s1 s2) = true.
Proof.
  intros H1 H2 H3 H4 H5 H6. simpl. now rewrite H1, H2, H3, H4, H5, H6.
Qed.

Lemma parseTimeString_digits (h1 h2 m1 m2 s1 s2 : ascii) :
  JS.is_digit h1 = true -> JS.is_digit h2 = true ->
  JS.is_digit m1 = true -> JS.is_digit m2 = true ->
  JS.is_digit s1 = true -> JS.is_digit s2 = true ->
  parseTimeString (time_buffer h1 h2 m1 m2 s1 s2)
  = (String h1 (String h2 ""), String m1 (String m2 ""),
     String s1 (String s2 "")).
Proof.
  intros. apply parseTimeString_buffer; now apply digit_not_char.
Qed.

(** X7: the masked form [dd:dd:dd] is kept by every editing operation: a
    key (digit or not), a Backspace and a click each turn a masked buffer
    into a masked buffer. *)
Theorem time_buffer_kept (t key : string) (p : Z) :
  is_time_buffer t = true ->
  is_time_buffer (handleTimeInput t key p) = true
  /\ is_time_buffer (backspace_time t p) = true
  /\ is_time_buffer (click_time t p) = true.
Proof.
  intros Ht.
  destruct (is_time_buffer_inv t Ht)
    as (h1 & h2 & m1 & m2 & s1 & s2 & -> & H1 & H2 & H3 & H4 & H5 & H6).
  pose proof (parseTimeString_digits h1 h2 m1 m2 s1 s2 H1 H2 H3 H4 H5 H6) as P.
  repeat split.
  - unfold handleTimeInput. destruct (is_digit_key key) eqn:Ek;
      [| exact Ht].
    destruct (is_digit_key_form key Ek) as (k & -> & Hk).
    simpl negb. cbv iota. unfold enter_digit. rewrite P.
    destruct (field_of_cursor p); simpl; now rewrite ?H1, ?H2, ?H3, ?H4, ?H5, ?H6, ?Hk.
  - unfold backspace_time. rewrite P.
    destruct (field_of_cursor p); simpl; now rewrite ?H1, ?H2, ?H3, ?H4, ?H5, ?H6.
  - unfold click_time. rewrite P.
    destruct (field_of_cursor p); simpl; now rewrite ?H1, ?H2, ?H3, ?H4, ?H5, ?H6.
Qed.

Lemma time_buffer_kept_witness :
  is_time_buffer (backspace_time "12:34:56" 4) = true.
Proof.
  exact (proj1 (proj2 (time_buffer_kept "12:34:56" "x" 4 eq_refl))).
Defined.

(** ** More on the time codec *)

Lemma pad2_below_100_nat (n : nat) :
  (n < 100)%nat ->
  pad2 (JS.Num (Z.of_nat n))
  = String (JS.digit_char (Z.of_nat n / 10))
      (String (JS.digit_char (Z.of_nat n mod 10)) "").
Proof.
  intros Hn.
  assert (Hall : forallb
                   (fun k => String.eqb (pad2 (JS.Num (Z.of_nat k)))
                               (String (JS.digit_char (Z.of_nat k / 10))
                                  (String (JS.digit_char (Z.of_nat k mod 10))
                                     "")))
                   (seq 0 100) = true) by (vm_compute; reflexivity).
  rewrite forallb_forall in Hall.
  apply String.eqb_eq, Hall, in_seq. lia.
Qed.

Lemma pad2_below_100 (v : Z) :
  0 <= v < 100 ->
  pad2 (JS.Num v)
  = String (JS.digit_char (v / 10)) (String (JS.digit_char (v mod 10)) "").
Proof.
  intros Hv. rewrite <- (Z2Nat.id v) by lia.
  apply pad2_below_100_nat. lia.
Qed.

(** X8: for a count below 100 hours [secondsToHms] gives the masked
    eight-character form [dd:dd:dd], with the decimal digits of the hours
    [n / 3600], the minutes [n mod 3600 / 60] and the seconds [n mod 60]. *)
Theorem secondsToHms_masked (n : Z) :
  0 <= n < 360000 ->
  secondsToHms (JS.Num n)
  = time_buffer (JS.digit_char (n / 3600 / 10))
      (JS.digit_char ((n / 3600) mod 10))
      (JS.digit_char (n mod 3600 / 60 / 10))
      (JS.digit_char ((n mod 3600 / 60) mod 10))
      (JS.digit_char (n mod 60 / 10))
      (JS.digit_char ((n mod 60) mod 10))
  /\ is_time_buffer (secondsToHms (JS.Num n)) = true
  /\ String.length (secondsToHms (JS.Num n)) = 8%nat.
Proof.
  intros Hn.
  assert (Hh : 0 <= n / 3600 < 100)
    by (split; [apply Z.div_pos; lia | apply Z.div_lt_upper_bound; lia]).
  pose proof (Z.mod_pos_bound n 3600 ltac:(lia)) as Hr.
  assert (Hm : 0 <= n mod 3600 / 60 < 100)
    by (split; [apply Z.div_pos; lia | apply Z.div_lt_upper_bound; lia]).
  pose proof (Z.mod_pos_bound n 60 ltac:(lia)) as Hs.
  assert (E : secondsToHms (JS.Num n)
              = time_buffer (JS.digit_char (n / 3600 / 10))
                  (JS.digit_char ((n / 3600) mod 10))
                  (JS.digit_char (n mod 3600 / 60 / 10))
                  (JS.digit_char ((n mod 3600 / 60) mod 10))
                  (JS.digit_char (n mod 60 / 10))
                  (JS.digit_char ((n mod 60) mod 10))).
  { rewrite secondsToHms_Num, !Z.rem_mod_nonneg by lia.
    now rewrite !pad2_below_100 by lia. }
  split; [exact E |]. rewrite E. split; [| reflexivity].
  apply is_time_buffer_intro; apply digit_char_is_digit;
    try (apply Z.mod_pos_bound; lia);
    (split; [apply Z.div_pos; lia | apply Z.div_lt_upper_bound; lia]).
Qed.

Lemma secondsToHms_masked_witness :
  String.length (secondsToHms (JS.Num 359999)) = 8%nat.
Proof.
  apply (secondsToHms_masked 359999). lia.
Defined.

(** X9: distinct non-negative counts have distinct texts. *)
Theorem secondsToHms_injective (a b : Z) :
  0 <= a -> 0 <= b ->
  secondsToHms (JS.Num a) = secondsToHms (JS.Num b) -> a = b.
Proof.
  intros Ha Hb H. apply (f_equal hmsToSeconds) in H.
  rewrite !hmsToSeconds_secondsToHms_nonneg in H by assumption.
  now injection H.
Qed.

Lemma secondsToHms_injective_witness : 30 + 30 = 60.
Proof.
  apply (secondsToHms_injective (30 + 30) 60); [lia | lia | reflexivity].
Defined.

Lemma or_else_Num (z : Z) : JS.or_else (JS.Num z) (JS.Num 0) = JS.Num z.
Proof.
  unfold JS.or_else, JS.truthy. destruct (Z.eqb_spec z 0) as [-> | ];
    reflexivity.
Qed.

Lemma two_digits_value (a b : ascii) :
  JS.is_digit a = true -> JS.is_digit b = true ->
  segment_value (String a (String b ""))
  = JS.Num (10 * JS.digit_val a + JS.digit_val b).
Proof.
  intros Ha Hb. unfold segment_value.
  rewrite parseInt_digits; [| simpl; now rewrite Ha, Hb | reflexivity].
  rewrite or_else_Num. f_equal.
  cbn [JS.parse_dec]. rewrite Ha, Hb. lia.
Qed.

(** X10: a masked buffer decodes by position: the two digits of each
    sub-field are read in base ten and weighted by 3600, 60 and 1; the
    result is a number between 0 and 99 * 3600 + 99 * 60 + 99. *)
Theorem hmsToSeconds_masked (h1 h2 m1 m2 s1 s2 : ascii) :
  JS.is_digit h1 = true -> JS.is_digit h2 = true ->
  JS.is_digit m1 = true -> JS.is_digit m2 = true ->
  JS.is_digit s1 = true -> JS.is_digit s2 = true ->
  hmsToSeconds (time_buffer h1 h2 m1 m2 s1 s2)
  = JS.Num ((10 * JS.digit_val h1 + JS.digit_val h2) * 3600
            + (10 * JS.digit_val m1 + JS.digit_val m2) * 60
            + (10 * JS.digit_val s1 + JS.digit_val s2))
  /\ 0 <= (10 * JS.digit_val h1 + JS.digit_val h2) * 3600
          + (10 * JS.digit_val m1 + JS.digit_val m2) * 60
          + (10 * JS.digit_val s1 + JS.digit_val s2) <= 362439.
Proof.
  intros H1 H2 H3 H4 H5 H6. split.
  - change (time_buffer h1 h2 m1 m2 s1 s2)
      with (String h1 (String h2 "") ++ ":" ++ String m1 (String m2 "")
            ++ ":" ++ String s1 (String s2 "")).
    rewrite hmsToSeconds_three_segments
      by (simpl; now rewrite ?(digit_not_char h1 ":"), ?(digit_not_char h2 ":"),
            ?(digit_not_char m1 ":"), ?(digit_not_char m2 ":"),
            ?(digit_not_char s1 ":"), ?(digit_not_char s2 ":")).
    now rewrite !two_digits_value by assumption.
  - unfold JS.digit_val. char_arith. lia.
Qed.

Lemma hmsToSeconds_masked_witness :
  hmsToSeconds (time_buffer "9" "9" "9" "9" "9" "9") = JS.Num 362439.
Proof.
  exact (proj1 (hmsToSeconds_masked "9" "9" "9" "9" "9" "9"
                  eq_refl eq_refl eq_refl eq_refl eq_refl eq_refl)).
Defined.




(** ** Reference parser *)

Lemma strip_prefix_app (lit s rest : string) :
  strip_prefix lit s = Some rest -> s = lit ++ rest.
Proof.
  revert s. induction lit as [| a p IH]; intros s; simpl.
  - intros H. now injection H as <-.
  - destruct s as [| b r]; [discriminate |].
    destruct (Ascii.eqb_spec a b) as [-> | ]; [| discriminate].
    intros H. now rewrite (IH r H).
Qed.

(** A literal with a character outside a class cannot be found in a text
    made of that class. *)
Lemma regex_capture_none (lit : string) (p q : ascii -> bool) (s : string) :
  all_chars q lit = false -> all_chars q s = true ->
  regex_capture lit p s = None.
Proof.
  intros Hlit. induction s as [| c r IH]; intros Hs.
  - simpl. destruct (strip_prefix lit "") as [rest |] eqn:E; [| reflexivity].
    apply strip_prefix_app in E. destruct lit; [discriminate | discriminate].
  - simpl in Hs. apply andb_true_iff in Hs. destruct Hs as [Hc Hr].
    change (regex_capture lit p (String c r))
      with (match
               match strip_prefix lit (String c r) with
               | Some rest =>
                   match take_while p rest with
                   | EmptyString => None
                   | cap => Some cap
                   end
               | None => None
               end
             with
             | Some cap => Some cap
             | None => regex_capture lit p r
             end).
    destruct (strip_prefix lit (String c r)) as [rest |] eqn:E.
    + apply strip_prefix_app in E.
      assert (Hall : all_chars q (lit ++ rest) = true)
        by (rewrite <- E; simpl; now rewrite Hc, Hr).
      rewrite all_chars_app, Hlit in Hall. discriminate.
    + now apply IH.
Qed.

Lemma all_chars_impl (p q : ascii -> bool) (s : string) :
  (forall c, p c = true -> q c = true) ->
  all_chars p s = true -> all_chars q s = true.
Proof.
  intros Hpq. induction s as [| c r IH]; simpl; [reflexivity |].
  intros H. apply andb_true_iff in H. destruct H as [Hc Hr].
  now rewrite (Hpq c Hc), IH.
Qed.

Lemma skip_space_not_space (s : string) :
  all_chars not_space s = true -> JS.skip_space s = s.
Proof.
  destruct s as [| c r]; simpl; [reflexivity |]. unfold not_space.
  intros H. apply andb_true_iff in H. destruct H as [Hc _].
  now destruct (JS.is_space c).
Qed.

Lemma rtrim_app_not_space (pre t : string) :
  all_chars not_space pre = true -> rtrim (pre ++ t) = pre ++ rtrim t.
Proof.
  induction pre as [| c r IH]; simpl; intros H; [reflexivity |].
  apply andb_true_iff in H. destruct H as [Hc Hr]. rewrite (IH Hr).
  unfold not_space in Hc. destruct (JS.is_space c); [discriminate |].
  now destruct (r ++ rtrim t).
Qed.

Lemma append_empty_r (s : string) : s ++ "" = s.
Proof. induction s as [| c r IH]; simpl; [reflexivity | now rewrite IH]. Qed.

Lemma rtrim_not_space (s : string) :
  all_chars not_space s = true -> rtrim s = s.
Proof.
  intros H. rewrite <- (append_empty_r s) at 1.
  rewrite (rtrim_app_not_space s "" H). simpl. apply append_empty_r.
Qed.

Lemma trim_not_space (s : string) :
  all_chars not_space s = true -> trim s = s.
Proof.
  intros H. unfold trim. now rewrite (skip_space_not_space s H), rtrim_not_space.
Qed.

Lemma alnum_not_space (c : ascii) : is_alnum c = true -> not_space c = true.
Proof.
  unfold is_alnum, not_space. intros H.
  assert (Hr : 48 <= JS.code c <= 122).
  { repeat (apply orb_true_iff in H; destruct H as [H | H]);
      apply andb_true_iff in H; destruct H as [H1 H2];
      apply Z.leb_le in H1; apply Z.leb_le in H2; lia. }
  apply negb_true_iff. unfold JS.is_space.
  repeat (apply orb_false_iff; split); apply Z.eqb_neq; lia.
Qed.

Lemma digit_alnum (c : ascii) : JS.is_digit c = true -> is_alnum c = true.
Proof.
  unfold JS.is_digit, is_alnum. intros ->. apply orb_true_r.
Qed.

Lemma alnum_not_slash (c : ascii) :
  is_alnum c = true -> not_slash_or_query c = true.
Proof.
  unfold is_alnum, not_slash_or_query. intros H.
  assert (Hr : 48 <= JS.code c <= 122).
  { repeat (apply orb_true_iff in H; destruct H as [H | H]);
      apply andb_true_iff in H; destruct H as [H1 H2];
      apply Z.leb_le in H1; apply Z.leb_le in H2; lia. }
  apply negb_true_iff. rewrite !eqb_code.
  change (JS.code "/") with 47. change (JS.code "?") with 63.
  apply orb_false_iff. split; apply Z.eqb_neq; [lia |].
  intros E. rewrite E in H. discriminate.
Qed.

Lemma all_chars_nonempty_false (p : ascii -> bool) (s : string) :
  all_chars p s = false -> nonempty s = true.
Proof. destruct s; [discriminate | reflexivity]. Qed.

(** X12: a text of decimal digits only is a Video reference with the text
    as its id; an alphanumeric text that is not all digits is a Clip
    reference with the text as its id. *)
Theorem parseInput_bare_id (s : string) :
  all_chars is_alnum s = true -> nonempty s = true ->
  parseInput s
  = Some (mkRef (if all_chars JS.is_digit s then video else clip) s).
Proof.
  intros Hal Hne.
  pose proof (all_chars_impl _ _ s alnum_not_space Hal) as Hsp.
  unfold parseInput. rewrite (trim_not_space s Hsp), Hne. simpl negb. cbv iota.
  rewrite (regex_capture_none _ _ is_alnum s) by (reflexivity || exact Hal).
  rewrite (regex_capture_none _ _ is_alnum s) by (reflexivity || exact Hal).
  rewrite Hal. now destruct (all_chars JS.is_digit s).
Qed.

Lemma parseInput_bare_id_witness :
  parseInput "AbC123" = Some (mkRef clip "AbC123").
Proof.
  exact (parseInput_bare_id "AbC123" eq_refl eq_refl).
Defined.

Lemma skip_space_all_space (s : string) :
  all_chars JS.is_space s = true -> JS.skip_space s = "".
Proof.
  induction s as [| c r IH]; simpl; [reflexivity |].
  intros H. apply andb_true_iff in H. destruct H as [Hc Hr].
  rewrite Hc. now apply IH.
Qed.

(** X13: an empty text or a text of white space only is no reference. *)
Theorem parseInput_blank (s : string) :
  all_chars JS.is_space s = true -> parseInput s = None.
Proof.
  intros H. unfold parseInput, trim.
  now rewrite (skip_space_all_space s H).
Qed.

Lemma parseInput_blank_witness : parseInput "   " = None.
Proof. exact (parseInput_blank "   " eq_refl). Defined.

Lemma take_while_all_chars (p : ascii -> bool) (s : string) :
  all_chars p (take_while p s) = true.
Proof.
  induction s as [| c r IH]; simpl; [reflexivity |].
  destruct (p c) eqn:E; simpl; [now rewrite E | reflexivity].
Qed.

Lemma regex_capture_some (lit : string) (p : ascii -> bool) (s cap : string) :
  regex_capture lit p s = Some cap ->
  nonempty cap = true /\ all_chars p cap = true.
Proof.
  induction s as [| c r IH].
  - simpl. destruct (strip_prefix lit "") as [rest |]; [| discriminate].
    pose proof (take_while_all_chars p rest) as Ht.
    destruct (take_while p rest); [discriminate |].
    intros H. injection H as <-. auto.
  - change (regex_capture lit p (String c r))
      with (match
               match strip_prefix lit (String c r) with
               | Some rest =>
                   match take_while p rest with
                   | EmptyString => None
                   | cap => Some cap
                   end
               | None => None
               end
             with
             | Some cap => Some cap
             | None => regex_capture lit p r
             end).
    destruct (strip_prefix lit (String c r)) as [rest |]; [| exact IH].
    pose proof (take_while_all_chars p rest) as Ht.
    destruct (take_while p rest); [exact IH |].
    intros H. injection H as <-. auto.
Qed.

(** X14: every reference the parser yields has a non-empty id; the id of a
    Video reference consists of decimal digits only, and the id of a Clip
    reference contains neither [/] nor [?]. *)
Theorem parseInput_well_formed (s : string) (r : MediaRef) :
  parseInput s = Some r ->
  nonempty (id r) = true
  /\ match type r with
     | video => all_chars JS.is_digit (id r) = true
     | clip => all_chars not_slash_or_query (id r) = true
     end.
Proof.
  unfold parseInput. destruct (nonempty (trim s)) eqn:Ene; [| discriminate].
  simpl negb. cbv iota.
  destruct (regex_capture "chzzk.naver.com/clips/" _ (trim s)) as [cap |] eqn:Ec.
  - intros H. injection H as <-. simpl. now apply regex_capture_some in Ec.
  - destruct (regex_capture "chzzk.naver.com/video/" _ (trim s))
      as [cap |] eqn:Ev.
    + intros H. injection H as <-. simpl. now apply regex_capture_some in Ev.
    + destruct (all_chars JS.is_digit (trim s)) eqn:Ed.
      * intros H. injection H as <-. simpl. auto.
      * destruct (all_chars is_alnum (trim s)) eqn:Ea; [| discriminate].
        intros H. injection H as <-. simpl. split; [exact Ene |].
        now apply (all_chars_impl _ _ _ alnum_not_slash).
Qed.

Lemma parseInput_well_formed_witness :
  nonempty "AbC9" = true /\ all_chars not_slash_or_query "AbC9" = true.
Proof.
  exact (parseInput_well_formed " https://chzzk.naver.com/clips/AbC9?x=1 "
           (mkRef clip "AbC9") eq_refl).
Defined.

Lemma rtrim_all_space (b : string) :
  all_chars JS.is_space b = true -> rtrim b = "".
Proof.
  induction b as [| c r IH]; simpl; [reflexivity |].
  intros H. apply andb_true_iff in H. destruct H as [Hc Hr].
  now rewrite (IH Hr), Hc.
Qed.

Lemma rtrim_app_space (u b : string) :
  all_chars JS.is_space b = true -> rtrim (u ++ b) = rtrim u.
Proof.
  intros Hb. induction u as [| c r IH]; simpl.
  - now apply rtrim_all_space.
  - now rewrite IH.
Qed.

Lemma skip_space_app_space (a x : string) :
  all_chars JS.is_space a = true -> JS.skip_space (a ++ x) = JS.skip_space x.
Proof.
  induction a as [| c r IH]; simpl; [reflexivity |].
  intros H. apply andb_true_iff in H. destruct H as [Hc Hr].
  rewrite Hc. now apply IH.
Qed.

Lemma skip_space_app_r (s b : string) :
  all_chars JS.is_space b = true ->
  rtrim (JS.skip_space (s ++ b)) = rtrim (JS.skip_space s).
Proof.
  intros Hb. induction s as [| c r IH]; simpl.
  - rewrite (skip_space_all_space b Hb). reflexivity.
  - destruct (JS.is_space c); [exact IH |].
    change (String c (r ++ b)) with (String c r ++ b).
    now apply rtrim_app_space.
Qed.

Lemma trim_padded (a s b : string) :
  all_chars JS.is_space a = true -> all_chars JS.is_space b = true ->
  trim (a ++ s ++ b) = trim s.
Proof.
  intros Ha Hb. unfold trim.
  now rewrite (skip_space_app_space a _ Ha), skip_space_app_r.
Qed.

(** X15: white space around the text does not matter: a text and the same
    text with white space before and after it are parsed alike. *)
Theorem parseInput_padded (a s b : string) :
  all_chars JS.is_space a = true -> all_chars JS.is_space b = true ->
  parseInput (a ++ s ++ b) = parseInput s.
Proof.
  intros Ha Hb. unfold parseInput. now rewrite trim_padded.
Qed.

Lemma parseInput_padded_witness :
  parseInput ("  " ++ "chzzk.naver.com/video/42" ++ " ")
  = parseInput "chzzk.naver.com/video/42".
Proof.
  exact (parseInput_padded "  " "chzzk.naver.com/video/42" " "
           eq_refl eq_refl).
Defined.

Lemma take_while_all (p : ascii -> bool) (s : string) :
  all_chars p s = true -> take_while p s = s.
Proof.
  induction s as [| c r IH]; simpl; [reflexivity |].
  intros H. apply andb_true_iff in H. destruct H as [Hc Hr].
  now rewrite Hc, IH.
Qed.

Lemma take_while_stop (p : ascii -> bool) (s r : string) (x : ascii) :
  all_chars p s = true -> p x = false ->
  take_while p (s ++ String x r) = s.
Proof.
  intros Hs Hx. induction s as [| c t IH]; simpl.
  - now rewrite Hx.
  - simpl in Hs. apply andb_true_iff in Hs. destruct Hs as [Hc Ht].
    now rewrite Hc, IH.
Qed.

Lemma digit_not_space_char (c : ascii) :
  JS.is_digit c = true -> not_space c = true.
Proof. intros H. unfold not_space. now rewrite digit_not_space. Qed.

Lemma nonempty_cases (s : string) :
  nonempty s = true -> exists c r, s = String c r.
Proof. destruct s as [| c r]; [discriminate | eauto]. Qed.

(** X16: the URL of a recording, with or without the [https://] scheme, is
    a Video reference whose id is the run of digits after [/video/]. *)
Theorem parseInput_video_url_form (d : string) :
  all_chars JS.is_digit d = true -> nonempty d = true ->
  parseInput ("chzzk.naver.com/video/" ++ d) = Some (mkRef video d)
  /\ parseInput ("https://chzzk.naver.com/video/" ++ d)
     = Some (mkRef video d).
Proof.
  intros Hd Hne.
  pose proof (all_chars_impl _ _ d digit_not_space_char Hd) as Hsp.
  assert (Hclip : regex_capture "chzzk.naver.com/clips/" not_slash_or_query d
                  = None)
    by now apply (regex_capture_none _ _ JS.is_digit).
  pose proof (take_while_all JS.is_digit d Hd) as Htw.
  destruct (nonempty_cases d Hne) as (c & r & Ed).
  split.
  - unfold parseInput.
    rewrite trim_not_space by (simpl; exact Hsp).
    simpl. rewrite Hclip, Htw, Ed. reflexivity.
  - unfold parseInput.
    rewrite trim_not_space by (simpl; exact Hsp).
    simpl. rewrite Hclip, Htw, Ed. reflexivity.
Qed.

Lemma parseInput_video_url_form_witness :
  parseInput ("https://chzzk.naver.com/video/" ++ "123456")
  = Some (mkRef video "123456").
Proof.
  exact (proj2 (parseInput_video_url_form "123456" eq_refl eq_refl)).
Defined.

(** X17: the URL of a clip is a Clip reference whose id is the text after
    [/clips/]; a query string after the id is ignored. *)
Theorem parseInput_clip_url_form (c q : string) :
  all_chars is_alnum c = true -> nonempty c = true ->
  parseInput ("https://chzzk.naver.com/clips/" ++ c) = Some (mkRef clip c)
  /\ parseInput ("https://chzzk.naver.com/clips/" ++ c ++ String "?" q)
     = Some (mkRef clip c).
Proof.
  intros Hc Hne.
  pose proof (all_chars_impl _ _ c alnum_not_space Hc) as Hsp.
  pose proof (all_chars_impl _ _ c alnum_not_slash Hc) as Hns.
  destruct (nonempty_cases c Hne) as (x & r & Ec).
  split.
  - unfold parseInput.
    rewrite trim_not_space by (simpl; exact Hsp).
    simpl. rewrite (take_while_all _ c Hns), Ec. reflexivity.
  - assert (Hpre : all_chars not_space
                     ("https://chzzk.naver.com/clips/" ++ c ++ "?") = true).
    { change ("https://chzzk.naver.com/clips/" ++ c ++ "?")
        with ("https://chzzk.naver.com/clips/" ++ (c ++ "?")).
      rewrite !all_chars_app, Hsp. reflexivity. }
    assert (Hq : "https://chzzk.naver.com/clips/" ++ c ++ String "?" q
                 = ("https://chzzk.naver.com/clips/" ++ c ++ "?") ++ q).
    { simpl. do 30 f_equal. clear. induction c as [| y t IH]; simpl;
        [reflexivity | now rewrite IH]. }
    assert (Hq' : ("https://chzzk.naver.com/clips/" ++ c ++ "?") ++ rtrim q
                  = "https://chzzk.naver.com/clips/"
                    ++ c ++ String "?" (rtrim q)).
    { simpl. do 30 f_equal. clear. induction c as [| y t IH]; simpl;
        [reflexivity | now rewrite IH]. }
    unfold parseInput, trim. rewrite Hq.
    change (JS.skip_space (("https://chzzk.naver.com/clips/" ++ c ++ "?") ++ q))
      with (("https://chzzk.naver.com/clips/" ++ c ++ "?") ++ q).
    rewrite (rtrim_app_not_space _ q Hpre), Hq'.
    simpl. rewrite (take_while_stop _ c (rtrim q) "?" Hns eq_refl), Ec.
    reflexivity.
Qed.

Lemma parseInput_clip_url_form_witness :
  parseInput ("https://chzzk.naver.com/clips/" ++ "AbC9" ++ String "?" "t=1 ")
  = Some (mkRef clip "AbC9").
Proof.
  exact (proj2 (parseInput_clip_url_form "AbC9" "t=1 " eq_refl eq_refl)).
Defined.

(** ** The controller: what one event can do *)

Ltac unfold_handlers :=
  unfold handle, change_videoInput, change_startTime, change_endTime,
    keydown_startTime, keydown_endTime, backspace_startTime,
    backspace_endTime, click_startTime, click_endTime, focus_startTime,
    focus_endTime, select_quality, select_outputDir, elapse, on_timer,
    video_info_settled, clip_info_settled, video_info_loaded,
    video_info_failed, clip_info_loaded, clip_info_failed, click_download,
    handleDownload, download_settled, click_install, handleInstallFfmpeg,
    install_settled, showToast.

Ltac proj_simpl :=
  cbn [videoInput startTime endTime outputDir isDownloading progress toast
       preview fetchingInfo availableQualities selectedQuality ffmpegReady
       installingFfmpeg clock timer inflight calls
       set_videoInput set_startTime set_endTime set_outputDir
       set_isDownloading set_progress set_toast set_preview
       set_fetchingInfo set_availableQualities set_selectedQuality
       set_ffmpegReady set_installingFfmpeg set_clock set_timer
       set_inflight set_calls] in *.

Ltac handler_cases :=
  unfold_handlers; proj_simpl;
  repeat (match goal with
          | |- context [if ?b then _ else _] => destruct b eqn:?
          | |- context [match ?x with _ => _ end] => destruct x eqn:?
          end; proj_simpl).

Lemma handle_calls (e : Event) (s : App) :
  calls (handle e s) = calls s
  \/ exists c, calls (handle e s) = (calls s ++ [c])%list.
Proof. destruct e; handler_cases; eauto. Qed.

Lemma effects_pass_isDownloading (prev cur : App) :
  isDownloading (effects_pass prev cur) = isDownloading cur.
Proof. effects_cases. Qed.

Lemma step_calls (s : App) (e : Event) : calls (step s e) = calls (handle e s).
Proof. unfold step. now rewrite commit_pass, effects_pass_calls. Qed.

(** X18: an event invokes at most one backend command, and never removes
    one from those invoked: the commands after the event are those before
    it, possibly followed by one more. *)
Theorem one_command_per_event (s : App) (e : Event) :
  calls (step s e) = calls s
  \/ exists c, calls (step s e) = (calls s ++ [c])%list.
Proof. rewrite step_calls. apply handle_calls. Qed.

(** ** Single flight *)

Lemma is_download_fetch (p : MediaRef) : is_download (fetch_command p) = false.
Proof. unfold fetch_command. now destruct (type p). Qed.

Lemma handle_in_flight (e : Event) (s : App) (n : nat) :
  in_flight_bound s n ->
  in_flight_bound (handle e s) (n + count_settled [e]).
Proof.
  unfold in_flight_bound, downloads. intros H.
  destruct e; simpl count_settled; handler_cases;
    rewrite ?filter_app, ?length_app; simpl;
    rewrite ?is_download_fetch; simpl;
    repeat match goal with
           | E : download_disabled _ = false |- _ =>
               unfold download_disabled, isBusy in E;
               repeat (apply orb_false_iff in E; destruct E as [E ?])
           | E : isBusy _ = false |- _ =>
               unfold isBusy in E; apply orb_false_iff in E;
               destruct E as [E ?]
           end;
    try match goal with
        | E : isDownloading s = _ |- _ => rewrite E in *
        end;
    try lia.
Qed.

Lemma step_in_flight (e : Event) (s : App) (n : nat) :
  in_flight_bound s n -> in_flight_bound (step s e) (n + count_settled [e]).
Proof.
  intros H. apply (handle_in_flight e) in H. unfold in_flight_bound in *.
  unfold downloads in *. unfold step.
  now rewrite commit_pass, effects_pass_calls, effects_pass_isDownloading.
Qed.

Lemma count_settled_cons (e : Event) (es : list Event) :
  count_settled (e :: es) = (count_settled [e] + count_settled es)%nat.
Proof. destruct e; reflexivity. Qed.

Lemma run_in_flight (es : list Event) :
  forall (s : App) (n : nat),
    in_flight_bound s n -> in_flight_bound (run es s) (n + count_settled es).
Proof.
  induction es as [| e es IH]; intros s n H.
  - simpl. now rewrite Nat.add_0_r.
  - rewrite run_cons, count_settled_cons, Nat.add_assoc.
    apply IH. now apply step_in_flight.
Qed.

(** X19: at most one download is in flight: after any sequence of events,
    the number of download commands invoked exceeds the number of download
    answers received by at most one, and by none when the downloading flag
    is clear. *)
Theorem single_flight (es : list Event) :
  (List.length (downloads (run es initial))
   <= count_settled es
      + (if isDownloading (run es initial) then 1 else 0))%nat.
Proof. exact (run_in_flight es initial 0 (Nat.le_0_l _)). Qed.

(** ** The pending timer *)








(** ** While busy *)

(** X21: while a download or an install is in flight no edit of the form
    takes effect: a change of the URL, of a time field (typing, digit key,
    Backspace, click, focus), of the quality or of the destination leaves
    the state as it was. *)
Theorem form_frozen_while_busy (s : App) (e : Event) :
  isBusy s = true -> edits_form e = true -> step s e = s.
Proof.
  intros Hbusy He. unfold step.
  assert (H : handle e s = s)
    by (destruct e; try discriminate; unfold_handlers; now rewrite Hbusy).
  rewrite H. apply commit_same.
Qed.

Lemma form_frozen_while_busy_witness :
  step downloading_state (ChangeEndTime "00:00:10") = downloading_state.
Proof.
  exact (form_frozen_while_busy downloading_state (ChangeEndTime "00:00:10")
           eq_refl eq_refl).
Defined.

(** ** A failed fetch *)

(** X22: when the fetch for a Video reference fails, the preview and the
    quality set are cleared and the fetching flag is dropped; the input,
    both time fields, the quality selection and the commands invoked are
    left as they were. *)
Theorem video_fetch_failure (s : App) (p : MediaRef) :
  awaiting p s = true -> type p = video ->
  preview (step s (VideoInfoSettled p None)) = None
  /\ availableQualities (step s (VideoInfoSettled p None)) = []
  /\ fetchingInfo (step s (VideoInfoSettled p None)) = false
  /\ videoInput (step s (VideoInfoSettled p None)) = videoInput s
  /\ startTime (step s (VideoInfoSettled p None)) = startTime s
  /\ endTime (step s (VideoInfoSettled p None)) = endTime s
  /\ selectedQuality (step s (VideoInfoSettled p None)) = selectedQuality s
  /\ calls (step s (VideoInfoSettled p None)) = calls s.
Proof.
  intros Haw Hty. unfold step. rewrite commit_pass.
  set (cur := handle (VideoInfoSettled p None) s).
  assert (Hcur : cur = set_fetchingInfo false
                         (video_info_failed
                            (set_inflight (remove_first p (inflight s)) s))).
  { unfold cur, handle, video_info_settled. now rewrite Haw, Hty. }
  assert (Hprev : preview cur = None) by now rewrite Hcur.
  assert (Hpar : parsed cur = parsed s) by now rewrite Hcur.
  rewrite effects_pass_preview, effects_pass_availableQualities,
    effects_pass_fetchingInfo, effects_pass_videoInput,
    effects_pass_startTime, effects_pass_endTime,
    effects_pass_selectedQuality, effects_pass_calls.
  rewrite (end_effect_no_preview cur Hprev),
    (start_effect_no_preview cur Hprev), Hpar, same_deps_refl, Hprev.
  rewrite Hcur. proj_simpl. unfold video_info_failed. proj_simpl.
  repeat split; try reflexivity.
  - now destruct (same_start_deps _ _).
  - now destruct (same_end_deps _ _).
Qed.

Lemma video_fetch_failure_witness :
  preview (step (run [ChangeVideoInput "123"; Elapse 500] initial)
             (VideoInfoSettled (mkRef video "123") None))
  = None.
Proof.
  exact (proj1 (video_fetch_failure
                  (run [ChangeVideoInput "123"; Elapse 500] initial)
                  (mkRef video "123") eq_refl eq_refl)).
Defined.

(** ** The clamps at work *)

Lemma hmsToSeconds_empty : hmsToSeconds "" = JS.Num 0.
Proof. reflexivity. Qed.

Lemma step_change_endTime (s : App) (val : string) :
  isBusy s = false -> (String.length val <= 8)%nat ->
  endTime (step s (ChangeEndTime val))
  = if String.eqb (endTime s) val then val
    else match end_effect (set_endTime val s) with
         | Some v => v
         | None => val
         end.
Proof.
  intros Hbusy Hlen. unfold step. rewrite commit_pass, effects_pass_endTime.
  unfold handle, change_endTime. rewrite Hbusy.
  destruct (Nat.leb_spec (String.length val) 8); [| lia].
  unfold same_end_deps. proj_simpl.
  change (preview_duration (set_endTime val s)) with (preview_duration s).
  change (isClip (set_endTime val s)) with (isClip s).
  now rewrite option_Z_eqb_refl, Bool.eqb_reflx, !andb_true_r.
Qed.

Lemma step_change_startTime (s : App) (val : string) :
  isBusy s = false -> (String.length val <= 8)%nat ->
  startTime (step s (ChangeStartTime val))
  = if String.eqb (startTime s) val then val
    else match start_effect (set_startTime val s) with
         | Some v => v
         | None => val
         end.
Proof.
  intros Hbusy Hlen. unfold step. rewrite commit_pass, effects_pass_startTime.
  unfold handle, change_startTime. rewrite Hbusy.
  destruct (Nat.leb_spec (String.length val) 8); [| lia].
  unfold same_start_deps. proj_simpl.
  change (preview_duration (set_startTime val s)) with (preview_duration s).
  change (isClip (set_startTime val s)) with (isClip s).
  now rewrite option_Z_eqb_refl, Bool.eqb_reflx, !andb_true_r.
Qed.

Lemma nonempty_of_decoded (val : string) (e : Z) :
  hmsToSeconds val = JS.Num e -> e <> 0 -> nonempty val = true.
Proof.
  destruct val; [| reflexivity]. rewrite hmsToSeconds_empty.
  intros H. injection H as <-. congruence.
Qed.

(** X23: in any reachable state with a Video reference of known duration
    [d > 0], an end text entered by hand that decodes to more than [d] is
    replaced by the encoded duration, and any other end text is kept; the
    end time that results never decodes to more than [d]. *)
Theorem end_time_clamped (es : list Event) (val : string) (d e : Z) :
  isBusy (run es initial) = false -> isClip (run es initial) = false ->
  truthy_duration (run es initial) = Some d -> 0 < d ->
  (String.length val <= 8)%nat -> hmsToSeconds val = JS.Num e ->
  endTime (step (run es initial) (ChangeEndTime val))
  = (if d <? e then secondsToHms (JS.Num d) else val)
  /\ hmsToSeconds (endTime (step (run es initial) (ChangeEndTime val)))
     = JS.Num (Z.min e d).
Proof.
  intros Hbusy Hclip Hd Hpos Hlen He.
  pose proof (run_at_rest es initial initial_at_rest) as [Hrest _].
  set (s := run es initial) in *.
  assert (Hfx : forall t, endTime t = val -> truthy_duration t = Some d ->
                          isClip t = false ->
                          end_effect t
                          = if d <? e then Some (secondsToHms (JS.Num d))
                            else None).
  { intros t Ht Htd Htc. unfold end_effect. rewrite Htd, Ht, Htc, He.
    simpl JS.gt. destruct (Z.ltb_spec d e) as [Hlt | Hge].
    - now rewrite (nonempty_of_decoded val e He) by lia.
    - now destruct (negb (nonempty val) || false). }
  assert (E : endTime (step s (ChangeEndTime val))
              = if d <? e then secondsToHms (JS.Num d) else val).
  { rewrite (step_change_endTime s val Hbusy Hlen).
    destruct (String.eqb_spec (endTime s) val) as [Heq | Hne].
    - specialize (Hfx s Heq Hd Hclip).
      destruct (d <? e); [| reflexivity].
      rewrite <- Heq. symmetry. now apply Hrest.
    - rewrite (Hfx (set_endTime val s) eq_refl Hd Hclip).
      now destruct (d <? e). }
  split; [exact E |]. rewrite E.
  destruct (Z.ltb_spec d e).
  - rewrite hmsToSeconds_secondsToHms_nonneg by lia. f_equal. lia.
  - rewrite He. f_equal. lia.
Qed.

Lemma end_time_clamped_witness :
  endTime (step (run [ChangeVideoInput "123"; Elapse 500;
                      VideoInfoSettled (mkRef video "123")
                        (Some vod_of_two_minutes)] initial)
             (ChangeEndTime "00:09:00"))
  = "00:02:00".
Proof.
  refine (proj1 (end_time_clamped
                   [ChangeVideoInput "123"; Elapse 500;
                    VideoInfoSettled (mkRef video "123")
                      (Some vod_of_two_minutes)]
                   "00:09:00" 120 540 eq_refl eq_refl eq_refl eq_refl _
                   eq_refl)).
  simpl. lia.
Defined.

(** X24: in any reachable state with a Video reference of known duration
    [d > 0], a start text entered by hand that decodes to [d] or more is
    replaced by the encoding of [max 0 (d - 60)], and any other start text
    is kept; the start time that results always decodes to less than
    [d]. *)
Theorem start_time_clamped (es : list Event) (val : string) (d a : Z) :
  isBusy (run es initial) = false -> isClip (run es initial) = false ->
  truthy_duration (run es initial) = Some d -> 0 < d ->
  (String.length val <= 8)%nat -> hmsToSeconds val = JS.Num a ->
  startTime (step (run es initial) (ChangeStartTime val))
  = (if d <=? a then secondsToHms (JS.Num (Z.max 0 (d - 60))) else val)
  /\ hmsToSeconds (startTime (step (run es initial) (ChangeStartTime val)))
     = JS.Num (if d <=? a then Z.max 0 (d - 60) else a)
  /\ (if d <=? a then Z.max 0 (d - 60) else a) < d.
Proof.
  intros Hbusy Hclip Hd Hpos Hlen Ha.
  pose proof (run_at_rest es initial initial_at_rest) as [_ Hrest].
  set (s := run es initial) in *.
  assert (Hfx : forall t, startTime t = val -> truthy_duration t = Some d ->
                          isClip t = false ->
                          start_effect t
                          = if d <=? a
                            then Some (secondsToHms (JS.Num (Z.max 0 (d - 60))))
                            else None).
  { intros t Ht Htd Htc. unfold start_effect. rewrite Htd, Ht, Htc, Ha.
    simpl JS.ge. destruct (Z.leb_spec d a) as [Hle | Hgt].
    - now rewrite (nonempty_of_decoded val a Ha) by lia.
    - now destruct (negb (nonempty val) || false). }
  assert (E : startTime (step s (ChangeStartTime val))
              = if d <=? a then secondsToHms (JS.Num (Z.max 0 (d - 60)))
                else val).
  { rewrite (step_change_startTime s val Hbusy Hlen).
    destruct (String.eqb_spec (startTime s) val) as [Heq | Hne].
    - specialize (Hfx s Heq Hd Hclip).
      destruct (d <=? a); [| reflexivity].
      rewrite <- Heq. symmetry. now apply Hrest.
    - rewrite (Hfx (set_startTime val s) eq_refl Hd Hclip).
      now destruct (d <=? a). }
  split; [exact E |]. rewrite E.
  destruct (Z.leb_spec d a).
  - rewrite hmsToSeconds_secondsToHms_nonneg by lia. split; [reflexivity | lia].
  - split; [exact Ha | lia].
Qed.

Lemma start_time_clamped_witness :
  startTime (step (run [ChangeVideoInput "123"; Elapse 500;
                        VideoInfoSettled (mkRef video "123")
                          (Some vod_of_two_minutes)] initial)
               (ChangeStartTime "00:02:00"))
  = "00:01:00".
Proof.
  refine (proj1 (start_time_clamped
                   [ChangeVideoInput "123"; Elapse 500;
                    VideoInfoSettled (mkRef video "123")
                      (Some vod_of_two_minutes)]
                   "00:02:00" 120 120 eq_refl eq_refl eq_refl eq_refl _
                   eq_refl)).
  simpl. lia.
Defined.

(** ** Estimates and the range error *)

(** X25: whenever a blocking range error is reported, the range duration
    is [0] and every quality option shows its bitrate instead of a size
    estimate. *)
Theorem range_error_hides_estimates (s : App) (err : RangeError) :
  timeRangeError s = Some err ->
  downloadDuration s = JS.Num 0
  /\ quality_labels s
     = map (fun q => label_Mbps (bandwidth q)) (availableQualities s).
Proof.
  unfold timeRangeError. destruct (isClip s); [discriminate |].
  unfold truthy_duration.
  destruct (preview_duration s) as [d |] eqn:Ed; [| discriminate].
  destruct (d =? 0); [discriminate |].
  destruct (JS.ge _ _) eqn:Ege; [| discriminate]. intros _.
  assert (Hdd : downloadDuration s = JS.Num 0).
  { unfold downloadDuration. rewrite Ed. unfold endSec in Ege.
    destruct (hmsToSeconds (startTime s)) as [a |]; [| discriminate].
    destruct (if nonempty (endTime s) then hmsToSeconds (endTime s)
              else JS.Num d) as [e |]; [| discriminate].
    simpl in Ege. apply Z.leb_le in Ege. simpl. f_equal. lia. }
  split; [exact Hdd |]. unfold quality_labels. now rewrite Hdd.
Qed.

Lemma range_error_hides_estimates_witness :
  quality_labels
    (set_startTime "00:02:00"
       (set_endTime "00:01:00"
          (set_preview (Some (preview_of_vod vod_with_qualities))
             (set_availableQualities (qualities vod_with_qualities)
                (set_videoInput "123" initial)))))
  = [label_Mbps 3000000; label_Mbps 8000000].
Proof.
  exact (proj2 (range_error_hides_estimates
                  (set_startTime "00:02:00"
                     (set_endTime "00:01:00"
                        (set_preview (Some (preview_of_vod vod_with_qualities))
                           (set_availableQualities
                              (qualities vod_with_qualities)
                              (set_videoInput "123" initial)))))
                  start_not_before_end eq_refl)).
Defined.

(** ** The stored quality set *)

Lemma handle_qualities_sorted (e : Event) (s : App) :
  Sorted by_bandwidth_desc (availableQualities s) ->
  Sorted by_bandwidth_desc (availableQualities (handle e s)).
Proof.
  intros H. destruct e; handler_cases;
    try assumption; try constructor; apply sortedQualities_sorted.
Qed.

Lemma run_qualities_sorted (es : list Event) :
  forall s, Sorted by_bandwidth_desc (availableQualities s) ->
            Sorted by_bandwidth_desc (availableQualities (run es s)).
Proof.
  induction es as [| e es IH]; intros s H; [exact H |].
  rewrite run_cons. apply IH. unfold step.
  rewrite commit_pass, effects_pass_availableQualities.
  now apply handle_qualities_sorted.
Qed.

Lemma by_bandwidth_desc_trans (a b c : VideoQuality) :
  by_bandwidth_desc a b -> by_bandwidth_desc b c -> by_bandwidth_desc a c.
Proof. unfold by_bandwidth_desc. lia. Qed.

Lemma sorted_head_max (q0 : VideoQuality) (rest : list VideoQuality) :
  Sorted by_bandwidth_desc (q0 :: rest) ->
  forall q, In q rest -> bandwidth q <= bandwidth q0.
Proof.
  intros H. apply Sorted_StronglySorted in H;
    [| exact by_bandwidth_desc_trans].
  inversion H as [| ? ? _ Hall]; subst.
  intros q Hq. rewrite Forall_forall in Hall. exact (Hall q Hq).
Qed.

(** X26: in every reachable state the stored quality set is ordered by
    descending bandwidth; in particular its first option has the highest
    bandwidth of all. *)
Theorem qualities_always_sorted (es : list Event) :
  Sorted by_bandwidth_desc (availableQualities (run es initial))
  /\ forall q0 rest q,
       availableQualities (run es initial) = q0 :: rest ->
       In q rest -> bandwidth q <= bandwidth q0.
Proof.
  assert (H : Sorted by_bandwidth_desc (availableQualities (run es initial)))
    by (apply run_qualities_sorted; constructor).
  split; [exact H |]. intros q0 rest q E. rewrite E in H.
  now apply sorted_head_max.
Qed.

(** ** The download button *)

Lemma step_click_download (s : App) :
  step s ClickDownload = click_download s.
Proof.
  unfold step. rewrite commit_pass. apply effects_pass_unchanged;
    unfold handle; handler_cases; reflexivity.
Qed.

Lemma download_disabled_set_toast (v : option ToastData) (s : App) :
  download_disabled (set_toast v s) = download_disabled s.
Proof. reflexivity. Qed.

(** X27: a second click on the download button right after a first one
    changes nothing more: whether the first click was ignored, was refused
    with a notification or dispatched a download, clicking twice gives the
    state of clicking once. *)
Theorem double_click_download (s : App) :
  step (step s ClickDownload) ClickDownload = step s ClickDownload.
Proof.
  rewrite !step_click_download.
  destruct (download_disabled s) eqn:Ed.
  - assert (E : click_download s = s)
      by (unfold click_download; now rewrite Ed).
    now rewrite !E.
  - assert (E : click_download s = handleDownload s)
      by (unfold click_download; now rewrite Ed).
    rewrite E. unfold handleDownload.
    destruct (parsed s) as [p |] eqn:Ep.
    + destruct (nonempty (outputDir s)) eqn:Eo; simpl negb; cbv iota.
      * unfold click_download.
        match goal with
        | |- (if download_disabled ?x then _ else _) = _ =>
            assert (Hd : download_disabled x = true)
              by (unfold download_disabled, isBusy; proj_simpl; reflexivity);
            now rewrite Hd
        end.
      * unfold click_download, showToast.
        rewrite download_disabled_set_toast, Ed.
        unfold handleDownload.
        change (parsed (set_toast _ s)) with (parsed s). rewrite Ep.
        proj_simpl. now rewrite Eo.
    + unfold click_download, showToast.
      rewrite download_disabled_set_toast, Ed.
      unfold handleDownload.
      change (parsed (set_toast _ s)) with (parsed s). now rewrite Ep.
Qed.

Lemma command_ok_fetch (p : MediaRef) : command_ok (fetch_command p).
Proof. unfold fetch_command. now destruct (type p). Qed.

Lemma nonempty_not_empty (t : string) : nonempty t = true -> t <> "".
Proof. destruct t; [discriminate | discriminate]. Qed.

Lemma handle_commands_ok (e : Event) (s : App) :
  Forall command_ok (calls s) -> Forall command_ok (calls (handle e s)).
Proof.
  intros H. destruct e; handler_cases; try assumption;
    apply Forall_app; (split; [assumption |]);
    constructor; try constructor; try apply command_ok_fetch; simpl; auto.
  all: try (now apply nonempty_not_empty); try discriminate.
  all: match goal with
       | E : String.eqb _ "auto" = false |- _ =>
           apply String.eqb_neq in E; congruence
       end.
Qed.

Lemma run_commands_ok (es : list Event) :
  forall s, Forall command_ok (calls s) ->
            Forall command_ok (calls (run es s)).
Proof.
  induction es as [| e es IH]; intros s H; [exact H |].
  rewrite run_cons. apply IH. rewrite step_calls.
  now apply handle_commands_ok.
Qed.

(** X28: no video download is ever invoked with an empty start time or
    with the pseudo-id ["auto"] as its quality: a blank start is sent as
    [00:00:00] and the automatic choice as an unset quality. *)
Theorem download_commands_well_formed (es : list Event)
  (videoId start finish dir : string) (q : option string) :
  In (download_vod videoId start finish dir q) (calls (run es initial)) ->
  start <> "" /\ q <> Some "auto".
Proof.
  intros Hin.
  pose proof (run_commands_ok es initial (Forall_nil _)) as H.
  rewrite Forall_forall in H. exact (H _ Hin).
Qed.

Lemma download_commands_well_formed_witness :
  "00:00:00" <> "" /\ @None string <> Some "auto".
Proof.
  refine (download_commands_well_formed
            [ChangeVideoInput "123"; SelectOutputDir "/tmp";
             ChangeStartTime ""; FfmpegChecked true; ClickDownload]
            "123" "00:00:00" "" "/tmp" None _).
  vm_compute. auto.
Defined.

(** X29: a click on the download button invokes a command only when the
    controller is not busy, no range error is reported, a destination is
    chosen and a reference is parsed, for which, when it is a Video
    reference, ffmpeg is not known to be missing. *)
Theorem download_dispatch_requires (s : App) :
  calls (step s ClickDownload) <> calls s ->
  isBusy s = false
  /\ timeRangeError s = None
  /\ nonempty (outputDir s) = true
  /\ exists p, parsed s = Some p
               /\ (type p = video -> ffmpegReady s <> Some false).
Proof.
  rewrite step_click_download. unfold click_download.
  destruct (download_disabled s) eqn:Ed; [congruence |].
  unfold download_disabled in Ed.
  apply orb_false_iff in Ed. destruct Ed as [Ed Herr].
  apply orb_false_iff in Ed. destruct Ed as [Hbusy Hff].
  unfold handleDownload.
  destruct (parsed s) as [p |] eqn:Ep; [| unfold showToast; simpl; congruence].
  destruct (nonempty (outputDir s)) eqn:Eo;
    [| unfold showToast; simpl; congruence].
  intros _. repeat split; auto.
  - now destruct (timeRangeError s).
  - exists p. split; [reflexivity |]. intros Hty Hready.
    unfold needsFfmpeg, isClip in Hff. rewrite Ep, Hty, Hready in Hff.
    discriminate.
Qed.

Lemma download_dispatch_requires_witness :
  isBusy (set_outputDir "/tmp" (set_videoInput "clip1" initial)) = false.
Proof.
  refine (proj1 (download_dispatch_requires
                   (set_outputDir "/tmp" (set_videoInput "clip1" initial)) _)).
  vm_compute. discriminate.
Defined.
